(** * Cloudinary storage backend: identifier derivation, URL options and
      error mapping of [utils/cloudinary_storage.py]

    The development embeds the storage adapter of the repository
    ([CloudinaryStorage] and its two subclasses) and settles the
    properties stated about it.

    Modelling conventions.
    - A Python [str] is a [string]: a finite sequence of characters.  Only
      the operations the adapter uses are modelled ([startswith], [in],
      [split], slicing, [lower], [lstrip]); [lower] acts on the letters
      A-Z, which is all the adapter's comparisons against its ASCII
      extension table can observe.
    - [os.path.splitext] is the POSIX one (separator [/], no alternative
      separator), written after [genericpath._splitext].
    - A Python [dict] with string keys is a [gmap string pyval].
    - The hosted service is a state [W] with one transition per endpoint;
      every remote call and every log record is appended to a trace, so
      that "no remote call is made" is a statement about the trace.
    - Exceptions are values: an operation returns [Ok v] or [Raised e].
    - [providers.models.sanitize_filename] and the two helpers of
      [providers.domain_utils] are not among the sources: the operations
      that call them take them as parameters. *)

From Stdlib Require Import String Ascii List ZArith Lia Bool DecimalString.
From stdpp Require Import base strings gmap.

Open Scope string_scope.
Open Scope list_scope.

(** ** Python string primitives *)

Module PyStr.

(** [s[n:]] *)
Fixpoint drop (n : nat) (s : string) : string :=
  match n, s with
  | O, _ => s
  | S _, EmptyString => EmptyString
  | S n', String _ s' => drop n' s'
  end.

(** [s[:n]] *)
Fixpoint take (n : nat) (s : string) : string :=
  match n, s with
  | O, _ => EmptyString
  | S _, EmptyString => EmptyString
  | S n', String a s' => String a (take n' s')
  end.

(** [s[i:j]] for [0 <= i], [0 <= j] *)
Definition slice (i j : nat) (s : string) : string :=
  take (j - i) (drop i s).

(** [s.rfind(c)] for a one-character [c]: the highest index holding [c],
    or [-1].  [i] is the index of the head of [s], [last] the best
    index seen so far. *)
Fixpoint rfind_from (c : ascii) (s : string) (i last : Z) : Z :=
  match s with
  | EmptyString => last
  | String a s' =>
      rfind_from c s' (i + 1) (if Ascii.eqb a c then i else last)
  end.

Definition rfind (c : ascii) (s : string) : Z := rfind_from c s 0 (-1).

(** [s.startswith(p)] *)
Definition startswith (s p : string) : bool := String.prefix p s.

(** [sub in s] *)
Fixpoint contains (sub s : string) : bool :=
  String.prefix sub s
  || match s with
     | EmptyString => false
     | String _ s' => contains sub s'
     end.

(** [c in s] for a one-character [c] *)
Fixpoint has_char (c : ascii) (s : string) : bool :=
  match s with
  | EmptyString => false
  | String a s' => Ascii.eqb a c || has_char c s'
  end.

(** [s.split(c)] for a one-character separator: never the empty list. *)
Fixpoint split (c : ascii) (s : string) : list string :=
  match s with
  | EmptyString => [EmptyString]
  | String a s' =>
      if Ascii.eqb a c then EmptyString :: split c s'
      else match split c s' with
           | [] => [String a EmptyString]
           | w :: ws => String a w :: ws
           end
  end.

(** [l[-k]] for [k >= 1]; [None] stands for [IndexError]. *)
Definition index_from_end {A} (l : list A) (k : nat) : option A :=
  nth_error (rev l) (k - 1).

(** [c.lower()] on one character *)
Definition lower_char (a : ascii) : ascii :=
  let n := nat_of_ascii a in
  if (65 <=? n)%nat && (n <=? 90)%nat then ascii_of_nat (n + 32) else a.

(** [s.lower()] *)
Fixpoint lower (s : string) : string :=
  match s with
  | EmptyString => EmptyString
  | String a s' => String (lower_char a) (lower s')
  end.

(** [s.lstrip(c)] for a one-character set *)
Fixpoint lstrip (c : ascii) (s : string) : string :=
  match s with
  | EmptyString => EmptyString
  | String a s' => if Ascii.eqb a c then lstrip c s' else s
  end.

(** Python truthiness of a [str] *)
Definition truthy (s : string) : bool :=
  match s with EmptyString => false | _ => true end.

(** every character of [s] satisfies [p] *)
Fixpoint all_chars (p : ascii -> bool) (s : string) : bool :=
  match s with
  | EmptyString => true
  | String a s' => p a && all_chars p s'
  end.

End PyStr.

(** ** [os.path.splitext] (posixpath) *)

Module OsPath.
Import PyStr.

Definition sep : ascii := "/"%char.
Definition extsep : ascii := "."%char.

(** The loop of [_splitext] that skips leading dots: starting at
    [filenameIndex], it looks below [dotIndex] for a character that is
    not the extension separator.  [s] is [p[filenameIndex:dotIndex]]. *)
Fixpoint has_non_dot (s : string) : bool :=
  match s with
  | EmptyString => false
  | String a s' => if Ascii.eqb a extsep then has_non_dot s' else true
  end.

(** [genericpath._splitext(p, '/', None, '.')] *)
Definition splitext (p : string) : string * string :=
  let sepIndex := rfind sep p in
  let dotIndex := rfind extsep p in
  if (sepIndex <? dotIndex)%Z
     && has_non_dot (slice (Z.to_nat (sepIndex + 1)) (Z.to_nat dotIndex) p)
  then (take (Z.to_nat dotIndex) p, drop (Z.to_nat dotIndex) p)
  else (p, EmptyString).

End OsPath.

(** ** Settings *)

(** [django.conf.settings], as far as the adapter reads it. *)
Record settings := {
  CLOUDINARY_FOLDER : option string
}.

(** [getattr(settings, 'CLOUDINARY_FOLDER', 'media')] *)
Definition folder_of (cfg : settings) : string :=
  match CLOUDINARY_FOLDER cfg with
  | Some f => f
  | None => "media"
  end.

(** ** Identifier extraction *)

Module PublicId.
Import PyStr OsPath.

(** [CloudinaryStorage._extract_public_id]; [None] is Python's [None]. *)
Definition _extract_public_id (cfg : settings) (name : string)
  : option string :=
  if negb (truthy name) then None
  else
    let folder := folder_of cfg in
    if startswith name (folder +:+ "/") then
      Some (fst (splitext name))
    else
      let url_branch :=
        if contains "cloudinary.com" name then
          let parts := split sep name in
          if (2 <=? List.length parts)%nat then
            let filename := List.last parts EmptyString in
            let public_id := fst (splitext filename) in
            if (3 <=? List.length parts)%nat
               && bool_decide (index_from_end parts 2
                               = Some (List.last (split sep folder)
                                                 EmptyString))
            then Some (folder +:+ "/" +:+ public_id)
            else Some (folder +:+ "/" +:+ public_id)
          else None
        else None in
      match url_branch with
      | Some r => Some r
      | None =>
          let public_id := fst (splitext name) in
          if has_char sep public_id && negb (startswith public_id folder)
          then Some public_id
          else if startswith public_id folder then Some public_id
          else Some (folder +:+ "/" +:+ public_id)
      end.

End PublicId.

(** ** Python values, exceptions and the adapter's effects *)

(** The values that occur in the keyword dictionaries the adapter builds
    and in the resource descriptions the service returns. *)
Inductive pyval :=
| VStr (s : string)
| VInt (z : Z)
| VBool (b : bool).

#[global] Instance pyval_eq_dec : EqDecision pyval.
Proof. solve_decision. Defined.

(** The exceptions the adapter distinguishes.  [NotFound] is
    [cloudinary.exceptions.NotFound]; [Error] is any other instance of
    [Exception].  The argument is [str(e)]. *)
Inductive exn :=
| NotFound (msg : string)
| Error (msg : string).

Definition str_of_exn (e : exn) : string :=
  match e with NotFound m => m | Error m => m end.

Inductive outcome (A : Type) :=
| Ok (a : A)
| Raised (e : exn).
Arguments Ok {A} a.
Arguments Raised {A} e.

Inductive log_level := DEBUG | WARNING | ERROR.

(** What the adapter does to the outside: calls to the hosted service
    ([Upload], [Destroy], [Resource]), the local URL builder
    ([BuildUrl]) and log records. *)
Inductive event :=
| Upload (file_content : string) (options : gmap string pyval)
| Destroy (public_id : string) (kwargs : gmap string pyval)
| Resource (public_id : string) (kwargs : gmap string pyval)
| BuildUrl (public_id : string) (options : gmap string pyval)
| Log (level : log_level) (msg : string).

Definition is_remote_call (e : event) : bool :=
  match e with
  | Upload _ _ | Destroy _ _ | Resource _ _ => true
  | BuildUrl _ _ | Log _ _ => false
  end.

(** The Cloudinary client library over a service state [W]:
    [cloudinary.uploader.upload], [cloudinary.uploader.destroy],
    [cloudinary.api.resource] and [CloudinaryImage(id).build_url]. *)
Record Cloudinary (W : Type) := {
  uploader_upload :
    string -> gmap string pyval -> W -> outcome (gmap string pyval) * W;
  uploader_destroy :
    string -> gmap string pyval -> W -> outcome (gmap string pyval) * W;
  api_resource :
    string -> gmap string pyval -> W -> outcome (gmap string pyval) * W;
  build_url :
    string -> gmap string pyval -> outcome string
}.
Arguments uploader_upload {W} _ _ _ _.
Arguments uploader_destroy {W} _ _ _ _.
Arguments api_resource {W} _ _ _ _.
Arguments build_url {W} _ _ _.

(** The state an operation runs in: the service and the trace so far. *)
Record state (W : Type) := {
  remote : W;
  trace : list event
}.
Arguments remote {W} _.
Arguments trace {W} _.

Module Eff.
Section Monad.
Context {W : Type}.

Definition M (A : Type) : Type := state W -> outcome A * state W.

Definition ret {A} (a : A) : M A := fun s => (Ok a, s).

Definition bind {A B} (m : M A) (k : A -> M B) : M B :=
  fun s =>
    match m s with
    | (Ok a, s') => k a s'
    | (Raised e, s') => (Raised e, s')
    end.

Definition raise {A} (e : exn) : M A := fun s => (Raised e, s).

(** [try: body except Exception as e: handler(e)] *)
Definition try_except {A} (body : M A) (handler : exn -> M A) : M A :=
  fun s =>
    match body s with
    | (Ok a, s') => (Ok a, s')
    | (Raised e, s') => handler e s'
    end.

Definition emit (e : event) : M unit :=
  fun s => (Ok tt, {| remote := remote s; trace := trace s ++ [e] |}).

(** A call to the service: recorded, then answered by the service. *)
Definition call {A} (e : event) (f : W -> outcome A * W) : M A :=
  fun s =>
    let '(r, w) := f (remote s) in
    (r, {| remote := w; trace := trace s ++ [e] |}).

(** A call to a local library function that may raise. *)
Definition call_local {A} (e : event) (r : outcome A) : M A :=
  fun s => (r, {| remote := remote s; trace := trace s ++ [e] |}).

Definition log (l : log_level) (msg : string) : M unit :=
  emit (Log l msg).
End Monad.
Arguments M W A : clear implicits.

(** The state [s] once the service has moved to [w] and the events
    [evs] have been recorded. *)
Definition after {W} (s : state W) (w : W) (evs : list event) : state W :=
  {| remote := w; trace := trace s ++ evs |}.

(** The calls to the URL builder among some events *)
Fixpoint builder_calls (evs : list event)
  : list (string * gmap string pyval) :=
  match evs with
  | [] => []
  | BuildUrl public_id options :: evs' =>
      (public_id, options) :: builder_calls evs'
  | _ :: evs' => builder_calls evs'
  end.

(** The calls to the hosted service among some events *)
Definition remote_calls (evs : list event) : list event :=
  List.filter is_remote_call evs.
End Eff.

Notation "'let*' x ':=' m 'in' k" := (Eff.bind m (fun x => k))
  (at level 10, x name, m at level 100, k at level 200).
Notation "'run' m 'then' k" := (Eff.bind m (fun _ => k))
  (at level 10, m at level 100, k at level 200).

(** ** [uuid.uuid4] *)

Module Uuid.
Import PyStr.

Definition hex_digit (d : N) : ascii :=
  match String.get (N.to_nat d) "0123456789abcdef" with
  | Some c => c
  | None => "0"%char
  end.

(** ['%0{width}x' % n], for [n < 16 ^ width] *)
Fixpoint hex_fixed (width : nat) (n : N) : string :=
  match width with
  | O => EmptyString
  | S w => hex_fixed w (n / 16) +:+ String (hex_digit (n mod 16)) EmptyString
  end.

(** [str(UUID(int=n))]: the 32 hexadecimal digits of the 128-bit
    integer, grouped 8-4-4-4-12. *)
Definition str (n : N) : string :=
  let hex := hex_fixed 32 n in
  slice 0 8 hex +:+ "-" +:+ slice 8 12 hex +:+ "-" +:+ slice 12 16 hex
    +:+ "-" +:+ slice 16 20 hex +:+ "-" +:+ drop 20 hex.

Definition is_lower_hex (a : ascii) : bool :=
  has_char a "0123456789abcdef".

End Uuid.

(** ** A stand-in for [providers.models.sanitize_filename] *)

(** [providers.models.sanitize_filename], which [_generate_public_id]
    imports, is not among the sources, and the adapter's operations take
    it as a parameter.  This module holds one function of that type, to
    run the operations on concrete inputs.  It is the spec's example
    made total: [My Logo.PNG] becomes [my-logo.png].  The helper of the
    repository need not agree with it (the identifier recorded in
    [test_url_formats.py] keeps its capitals), and no property of the
    adapter is derived from it. *)
Module Providers.
Import PyStr OsPath.

(** The characters the stand-in lets through: the lower-case letters, the
    digits, [-] and [_]. *)
Definition is_legal (a : ascii) : bool :=
  has_char a "abcdefghijklmnopqrstuvwxyz0123456789-_".

(** One character of the stand-in: a letter is lower-cased, a character
    that is not let through becomes [-]. *)
Definition sanitize_char (a : ascii) : ascii :=
  let l := lower_char a in
  if is_legal l then l else "-"%char.

(** [sanitize_char] along a string *)
Fixpoint sanitize_chars (s : string) : string :=
  match s with
  | EmptyString => EmptyString
  | String a s' => String (sanitize_char a) (sanitize_chars s')
  end.

(** The stand-in: the stem and the extension are sanitized character by
    character and the dot between them is kept, so that
    [_generate_public_id] has an extension to strip. *)
Definition sanitize_filename (filename : string) : string :=
  let '(stem, ext) := splitext filename in
  match ext with
  | EmptyString => sanitize_chars stem
  | String _ rest =>
      sanitize_chars stem +:+ String extsep (sanitize_chars rest)
  end.


End Providers.

(** ** The storage classes *)

(** The byte source handed to [save]: whether it has [seek], whether it
    is a Django [UploadedFile], its [content_type] attribute if it has
    one, its bytes and its read position. *)
Record content := {
  has_seek : bool;
  is_uploaded_file : bool;
  content_type_attr : option string;
  data : string;
  position : nat
}.

Module CloudinaryStorage.
Import PyStr OsPath Eff.
Export PublicId.

(** The [format_mapping] literal of [_save] *)
Definition format_mapping : gmap string string :=
  <["jpg" := "jpg"]> (<["jpeg" := "jpg"]> (<["png" := "png"]>
  (<["gif" := "gif"]> (<["webp" := "webp"]> (<["svg" := "svg"]> ∅))))).

(** [x in format_mapping.values()] *)
Definition in_values (x : string) (m : gmap string string) : bool :=
  bool_decide (x ∈ (map_to_list m).*2).

(** The [upload_options] literal of [_save] *)
Definition upload_options_literal (public_id folder : string)
  : gmap string pyval :=
  <["public_id" := VStr public_id]> (<["resource_type" := VStr "image"]>
  (<["overwrite" := VBool false]> (<["folder" := VStr folder]>
  (<["use_filename" := VBool false]>
  (<["unique_filename" := VBool false]> ∅))))).

(** The part of [_save] between the literal and the [try]: the format
    from the extension, then the format from the media type. *)
Definition with_format (file_ext : string) (content_type : option string)
    (upload_options : gmap string pyval) : gmap string pyval :=
  let upload_options :=
    match format_mapping !! file_ext with
    | Some f => <["format" := VStr f]> upload_options
    | None => upload_options
    end in
  match content_type with
  | Some ct =>
      if truthy ct && has_char sep ct then
        let detected_format := List.last (split sep ct) EmptyString in
        if in_values detected_format format_mapping
        then <["format" := VStr detected_format]> upload_options
        else upload_options
      else upload_options
  | None => upload_options
  end.

(** [content.seek(0)] when there is a [seek], then [content.read()] *)
Definition read_all (c : content) : string :=
  drop (if has_seek c then 0 else position c) (data c).

(** The options of the [url] literal of the base class *)
Definition url_options : gmap string pyval :=
  <["secure" := VBool true]> (<["resource_type" := VStr "image"]>
  (<["quality" := VStr "auto:good"]> (<["crop" := VStr "limit"]>
  (<["width" := VInt 2000]> (<["height" := VInt 2000]> ∅))))).

(** The keyword arguments of the [destroy] and [resource] calls *)
Definition destroy_kwargs : gmap string pyval :=
  <["resource_type" := VStr "image"]> (<["invalidate" := VBool true]> ∅).

Definition resource_kwargs : gmap string pyval :=
  <["resource_type" := VStr "image"]> ∅.

Section Ops.
Context {W : Type}.
Variable api : Cloudinary W.
Variable cfg : settings.
(** [providers.models.sanitize_filename] *)
Variable sanitize_filename : string -> string.

(** [_generate_public_id]; [u] is the integer of the [uuid.uuid4()]
    drawn by the call. *)
Definition _generate_public_id (u : N) (filename : string) : string :=
  let sanitized := sanitize_filename filename in
  let name_without_ext := fst (splitext sanitized) in
  let unique_id := take 8 (Uuid.str u) in
  name_without_ext +:+ "_" +:+ unique_id.

(** The keyword arguments of the upload, as [_save] has them when it
    enters its [try]. *)
Definition _save_upload_options (u : N) (name : string) (c : content)
  : gmap string pyval :=
  let content_type :=
    if is_uploaded_file c then content_type_attr c else None in
  let file_ext := lstrip extsep (lower (snd (splitext name))) in
  let public_id := _generate_public_id u name in
  let folder := folder_of cfg in
  with_format file_ext content_type
              (upload_options_literal public_id folder).

Definition _save (u : N) (name : string) (c : content) : M W string :=
  let file_content := read_all c in
  let public_id := _generate_public_id u name in
  let folder := folder_of cfg in
  let upload_options := _save_upload_options u name c in
  try_except
    (let* result := call (Upload file_content upload_options)
                         (uploader_upload api file_content upload_options)
     in ret (folder +:+ "/" +:+ public_id))
    (fun e =>
       let msg := "Failed to upload " +:+ name +:+ " to Cloudinary: "
                    +:+ str_of_exn e in
       run log ERROR msg then raise (Error msg)).

Definition delete (name : string) : M W unit :=
  if negb (truthy name) then ret tt
  else
    try_except
      (match _extract_public_id cfg name with
       | Some public_id =>
           if truthy public_id then
             let* r := call (Destroy public_id destroy_kwargs)
                            (uploader_destroy api public_id destroy_kwargs)
             in ret tt
           else ret tt
       | None => ret tt
       end)
      (fun e =>
         match e with
         | NotFound _ => ret tt
         | Error _ =>
             log WARNING ("Failed to delete " +:+ name
                          +:+ " from Cloudinary: " +:+ str_of_exn e)
         end).

Definition exists_ (name : string) : M W bool :=
  if negb (truthy name) then ret false
  else
    try_except
      (match _extract_public_id cfg name with
       | Some public_id =>
           if truthy public_id then
             let* r := call (Resource public_id resource_kwargs)
                            (api_resource api public_id resource_kwargs)
             in ret true
           else ret false
       | None => ret false
       end)
      (fun e =>
         match e with
         | NotFound _ => ret false
         | Error _ =>
             run log DEBUG ("Error checking existence of " +:+ name
                            +:+ ": " +:+ str_of_exn e)
             then ret false
         end).

(** The body shared by the three [url] methods, which differ in the
    options literal and in the text of the warning. *)
Definition url_with (options : gmap string pyval) (what : string)
    (name : string) : M W string :=
  if negb (truthy name) then ret EmptyString
  else
    try_except
      (match _extract_public_id cfg name with
       | Some public_id =>
           if truthy public_id then
             let* url := call_local (BuildUrl public_id options)
                                    (build_url api public_id options)
             in ret url
           else ret EmptyString
       | None => ret EmptyString
       end)
      (fun e =>
         run log WARNING ("Failed to generate " +:+ what +:+ " for "
                          +:+ name +:+ ": " +:+ str_of_exn e)
         then ret EmptyString).

Definition url (name : string) : M W string :=
  url_with url_options "URL" name.

Definition get_available_name (u : N) (name : string)
    (max_length : option nat) : string :=
  _generate_public_id u name.

(** [resource.get('bytes', 0)] *)
Definition get_bytes (resource : gmap string pyval) : pyval :=
  match resource !! "bytes" with
  | Some v => v
  | None => VInt 0
  end.

Definition size (name : string) : M W pyval :=
  if negb (truthy name) then ret (VInt 0)
  else
    try_except
      (match _extract_public_id cfg name with
       | Some public_id =>
           if truthy public_id then
             let* resource := call (Resource public_id resource_kwargs)
                                   (api_resource api public_id
                                                 resource_kwargs)
             in ret (get_bytes resource)
           else ret (VInt 0)
       | None => ret (VInt 0)
       end)
      (fun e =>
         match e with
         | NotFound _ => ret (VInt 0)
         | Error _ =>
             run log DEBUG ("Error getting size for " +:+ name
                            +:+ ": " +:+ str_of_exn e)
             then ret (VInt 0)
         end).
End Ops.
End CloudinaryStorage.

Module CloudinaryMediaStorage.
(** [self.default_transformations], set by [__init__] and read by no
    method *)
Definition default_transformations : gmap string pyval :=
  <["quality" := VStr "auto:good"]> (<["fetch_format" := VStr "auto"]>
  (<["crop" := VStr "limit"]> (<["width" := VInt 2000]>
  (<["height" := VInt 2000]> ∅)))).

(** The options of the [url] literal of the media class *)
Definition url_options : gmap string pyval :=
  <["secure" := VBool true]> (<["resource_type" := VStr "image"]>
  (<["quality" := VStr "auto:good"]> (<["crop" := VStr "limit"]>
  (<["width" := VInt 2000]> (<["height" := VInt 2000]> ∅))))).

Definition url {W} (api : Cloudinary W) (cfg : settings) (name : string)
  : Eff.M W string :=
  CloudinaryStorage.url_with api cfg url_options "media URL" name.
End CloudinaryMediaStorage.

Module CloudinaryThumbnailStorage.
(** [self.thumbnail_transformations], set by [__init__] and read by no
    method *)
Definition thumbnail_transformations : gmap string pyval :=
  <["quality" := VStr "auto:good"]> (<["fetch_format" := VStr "auto"]>
  (<["crop" := VStr "fill"]> (<["width" := VInt 300]>
  (<["height" := VInt 300]> (<["gravity" := VStr "auto"]> ∅))))).

(** The options of the [url] literal of the thumbnail class *)
Definition url_options : gmap string pyval :=
  <["secure" := VBool true]> (<["resource_type" := VStr "image"]>
  (<["quality" := VStr "auto:good"]> (<["crop" := VStr "fill"]>
  (<["width" := VInt 300]> (<["height" := VInt 300]>
  (<["gravity" := VStr "auto"]> ∅)))))).

Definition url {W} (api : Cloudinary W) (cfg : settings) (name : string)
  : Eff.M W string :=
  CloudinaryStorage.url_with api cfg url_options "thumbnail URL" name.
End CloudinaryThumbnailStorage.

(** ** Stand-ins for the hosted service *)

(** Two small services on which the operations can be run: an in-memory
    store of identifiers, and a service that cannot be reached. *)
Module TestDouble.

Definition store := list string.

Definition described (public_id : string) (bytes : Z)
  : gmap string pyval :=
  <["public_id" := VStr public_id]> (<["bytes" := VInt bytes]> ∅).

Definition upload (file_content : string) (options : gmap string pyval)
    (w : store) : outcome (gmap string pyval) * store :=
  match options !! "folder", options !! "public_id" with
  | Some (VStr f), Some (VStr p) =>
      let id := f +:+ "/" +:+ p in
      if bool_decide (id ∈ w)
      then (Raised (Error ("Resource " +:+ id +:+ " already exists")), w)
      else (Ok (described id (Z.of_nat (String.length file_content))),
            id :: w)
  | _, _ => (Raised (Error "Missing required parameter - public_id"), w)
  end.

Definition destroy (public_id : string) (kwargs : gmap string pyval)
    (w : store) : outcome (gmap string pyval) * store :=
  if bool_decide (public_id ∈ w)
  then (Ok (<["result" := VStr "ok"]> ∅),
        filter (fun id => id ≠ public_id) w)
  else (Raised (NotFound ("Resource not found - " +:+ public_id)), w).

Definition resource (public_id : string) (kwargs : gmap string pyval)
    (w : store) : outcome (gmap string pyval) * store :=
  if bool_decide (public_id ∈ w)
  then (Ok (described public_id 1024), w)
  else (Raised (NotFound ("Resource not found - " +:+ public_id)), w).

Definition build (public_id : string) (options : gmap string pyval)
  : outcome string :=
  Ok ("https://res.cloudinary.com/demo/image/upload/" +:+ public_id).

Definition api : Cloudinary store := {|
  uploader_upload := upload;
  uploader_destroy := destroy;
  api_resource := resource;
  build_url := build
|}.

Definition unreachable {A} (w : store) : outcome A * store :=
  (Raised (Error "Connection refused"), w).

(** Every call fails with an error that is not "not found". *)
Definition offline : Cloudinary store := {|
  uploader_upload := fun _ _ => unreachable;
  uploader_destroy := fun _ _ => unreachable;
  api_resource := fun _ _ => unreachable;
  build_url := fun _ _ => Raised (Error "Must supply cloud_name")
|}.

Definition start (w : store) : state store :=
  {| remote := w; trace := [] |}.

(** [settings.CLOUDINARY_FOLDER] left unset, and set to ["folder"] *)
Definition default_settings : settings := {| CLOUDINARY_FOLDER := None |}.
Definition folder_settings : settings :=
  {| CLOUDINARY_FOLDER := Some "folder" |}.

Definition uploaded (content_type : string) (bytes : string) : content := {|
  has_seek := true;
  is_uploaded_file := true;
  content_type_attr := Some content_type;
  data := bytes;
  position := 0
|}.

End TestDouble.

(** ** [fix_cloudinary_images.py]: the check of one provider's logo *)

Module FixImages.
Import PyStr OsPath.

(** [posixpath.basename(p)]: [p[p.rfind('/') + 1:]] *)
Definition basename (p : string) : string :=
  drop (Z.to_nat (rfind sep p + 1)) p.

(** [os.path.basename(public_id).split('_')[0]]; [split] never returns
    the empty list, so the index is always in range. *)
Definition search_term (public_id : string) : string :=
  match split "_"%char (basename public_id) with
  | first :: _ => first
  | [] => EmptyString
  end.

(** Whether every character of a string is ASCII *)
Definition is_ascii (s : string) : bool :=
  all_chars (fun a => (nat_of_ascii a <? 128)%nat) s.

(** Python's [str.lower].  It is a Unicode operation, which depends on
    the characters around the one it folds; a string that is not ASCII is
    held here as its UTF-8 text.  What is known of [str.lower] is what
    Python guarantees for ASCII text: there it folds the letters A-Z and
    changes nothing else. *)
Record StrLower := {
  str_lower :> string -> string;
  str_lower_ascii :
    forall s, is_ascii s = true -> str_lower s = PyStr.lower s
}.

(** The fold of A-Z alone is one such function. *)
Definition ascii_lower : StrLower :=
  {| str_lower := PyStr.lower; str_lower_ascii := fun s _ => eq_refl |}.

Section Check.
(** [str.lower] *)
Variable lower : StrLower.

(** The loop over [cloudinary_images.keys()]: [found_similar] and the
    lines printed so far are carried along. *)
Fixpoint search_loop (term : string) (keys : list string)
    (found_similar : bool) (out : list string) : bool * list string :=
  match keys with
  | [] => (found_similar, out)
  | cld_id :: keys' =>
      if contains (lower term) (lower cld_id)
      then search_loop term keys' true
             (out ++ ["   [FOUND] Similar image: " +:+ cld_id])
      else search_loop term keys' found_similar out
  end.

(** The body of the loop over the providers that have a logo, for one
    provider: [business_name] is [provider.business_name], [logo_name] is
    [provider.logo.name], [logo_url] is [provider.logo.url], and [keys]
    are the keys of [cloudinary_images] in insertion order.  The result
    is the list of printed lines. *)
Definition check_logo (business_name logo_name logo_url : string)
    (keys : list string) : list string :=
  let out := [String "010" "   Provider: " +:+ business_name;
              "   Logo field value: " +:+ logo_name] in
  let public_id := logo_name in
  if bool_decide (public_id ∈ keys) then
    out ++ ["   [OK] Image exists in Cloudinary";
            "   URL: " +:+ logo_url]
  else
    let out := out ++ ["   [WARNING] Image NOT found in Cloudinary";
                       "   Searching for similar images..."] in
    let search_term := search_term public_id in
    let '(found_similar, out) := search_loop search_term keys false out in
    if negb found_similar
    then out ++ ["   [ERROR] No similar images found";
                 "   Action needed: Re-upload the logo for this provider"]
    else out.
End Check.

End FixImages.

(** ** [update_cname_config.py] *)

(** The script reads and writes rows of the provider table.  A row
    carries its primary key and the fields the script touches; the fields
    it prints without looking at them are kept as [field] values and
    printed with [str].  Fields the script neither reads nor writes stay
    in the database untouched; the two helpers of
    [providers.domain_utils], which are not among the sources, are
    parameters and may depend on such fields through the primary key.
    Non-ASCII text is in UTF-8. *)
Module CnameConfig.

Inductive field :=
| FNone
| FStr (s : string)
| FBool (b : bool).

(** [str(v)] *)
Definition str_of_field (v : field) : string :=
  match v with
  | FNone => "None"
  | FStr s => s
  | FBool true => "True"
  | FBool false => "False"
  end.

Definition str_of_nullable (v : option string) : string :=
  match v with
  | Some s => s
  | None => "None"
  end.

Record provider := {
  pk : nat;
  business_name : field;
  custom_domain : option string;
  custom_domain_type : field;
  domain_verified : field;
  ssl_enabled : field;
  cname_target : option string;
  txt_record_name : option string
}.

Definition set_cname_target (p : provider) (v : option string) : provider :=
  {| pk := pk p; business_name := business_name p;
     custom_domain := custom_domain p;
     custom_domain_type := custom_domain_type p;
     domain_verified := domain_verified p; ssl_enabled := ssl_enabled p;
     cname_target := v; txt_record_name := txt_record_name p |}.

Definition set_txt_record_name (p : provider) (v : option string)
  : provider :=
  {| pk := pk p; business_name := business_name p;
     custom_domain := custom_domain p;
     custom_domain_type := custom_domain_type p;
     domain_verified := domain_verified p; ssl_enabled := ssl_enabled p;
     cname_target := cname_target p; txt_record_name := v |}.

(** What the script does to the outside: a printed text, or
    [provider.save(update_fields=...)] of the row with that key. *)
Inductive action :=
| Print (text : string)
| Save (key : nat) (update_fields : list string).

Record script_state := {
  table : list provider;
  actions : list action
}.

Definition print (text : string) (st : script_state) : script_state :=
  {| table := table st; actions := actions st ++ [Print text] |}.

Definition prints (texts : list string) (st : script_state)
  : script_state :=
  fold_left (fun st text => print text st) texts st.

(** [s * n] *)
Fixpoint repeat_str (s : string) (n : nat) : string :=
  match n with
  | O => EmptyString
  | S n' => s +:+ repeat_str s n'
  end.

(** [str(n)] for a count *)
Definition str_of_nat (n : nat) : string :=
  NilEmpty.string_of_uint (Nat.to_uint n).

(** [filter(custom_domain__isnull=False).exclude(custom_domain='')] *)
Definition has_custom_domain (p : provider) : bool :=
  match custom_domain p with
  | Some d => negb (String.eqb d "")
  | None => false
  end.

Definition providers_with_domains (rows : list provider) : list provider :=
  List.filter has_custom_domain rows.

(** [provider.save(update_fields=updates)]: the row with the key of [p]
    takes the listed fields from [p]. *)
Definition save (p : provider) (update_fields : list string)
    (st : script_state) : script_state :=
  {| table :=
       map (fun row =>
              if Nat.eqb (pk row) (pk p) then
                let row :=
                  if bool_decide ("cname_target" ∈ update_fields)
                  then set_cname_target row (cname_target p) else row in
                if bool_decide ("txt_record_name" ∈ update_fields)
                then set_txt_record_name row (txt_record_name p) else row
              else row)
           (table st);
     actions := actions st ++ [Save (pk p) update_fields] |}.

Definition instructions : string :=
"
1. Login to your domain registrar (GoDaddy, Namecheap, etc.)
2. Go to DNS Settings
3. Remove conflicting A/ALIAS records for the root if present
4. Add the CNAME record above pointing to your unique target
5. Add the TXT record for verification
6. Wait for DNS propagation (5-30 minutes)
7. SSL will be auto-provisioned by the platform/Let's Encrypt

✨ After DNS is set up, your domain will work once verification succeeds!
".

Definition newline : string := String "010" EmptyString.

Section Script.
(** [providers.domain_utils.generate_unique_cname_target] and
    [generate_unique_txt_record_name] *)
Variable generate_unique_cname_target : provider -> string.
Variable generate_unique_txt_record_name : provider -> string.
(** [settings.PROVIDER_SUBDOMAIN_BASE], if set *)
Variable PROVIDER_SUBDOMAIN_BASE : option string.

(** The body of the loop over the providers *)
Definition update_provider (provider : provider) (st : script_state)
  : script_state :=
  let cname_target_ := generate_unique_cname_target provider in
  let txt_name := generate_unique_txt_record_name provider in
  let st :=
    prints
      ["Provider: " +:+ str_of_field (business_name provider);
       "Custom Domain: " +:+ str_of_nullable (custom_domain provider);
       "Domain Type: " +:+ str_of_field (custom_domain_type provider);
       "Domain Verified: " +:+ str_of_field (domain_verified provider);
       "SSL Enabled: " +:+ str_of_field (ssl_enabled provider);
       newline +:+ "📋 REQUIRED DNS RECORDS:";
       repeat_str "-" 70;
       newline +:+ "1️⃣  CNAME RECORD:";
       "   Name/Host: " +:+ str_of_nullable (custom_domain provider);
       "   Type: CNAME";
       "   Value/Target: " +:+ cname_target_;
       "   TTL: 3600 (Auto)";
       newline +:+ "2️⃣  TXT RECORD (Domain verification):";
       "   Name: " +:+ txt_name +:+ "."
         +:+ str_of_nullable (custom_domain provider);
       "   Type: TXT";
       "   Value: (unique code provided in dashboard)";
       "   TTL: 3600"] st in
  let updates : list string := [] in
  let '(provider, updates) :=
    if negb (bool_decide (cname_target provider = Some cname_target_))
    then (set_cname_target provider (Some cname_target_),
          updates ++ ["cname_target"])
    else (provider, updates) in
  let '(provider, updates) :=
    if negb (bool_decide (txt_record_name provider = Some txt_name))
    then (set_txt_record_name provider (Some txt_name),
          updates ++ ["txt_record_name"])
    else (provider, updates) in
  let st :=
    match updates with
    | _ :: _ =>
        print (newline +:+ "✅ Updated provider records: "
               +:+ String.concat ", " updates)
              (save provider updates st)
    | [] => print (newline +:+ "✓ DNS targets already up to date") st
    end in
  prints
    [newline +:+ "📝 SETUP INSTRUCTIONS:";
     repeat_str "-" 70;
     instructions;
     newline +:+ repeat_str "=" 70 +:+ newline] st.

Definition update_cname_records (rows : list provider) : script_state :=
  let base_domain :=
    match PROVIDER_SUBDOMAIN_BASE with
    | Some b => b
    | None => "nextslot.in"
    end in
  let st :=
    prints [newline +:+ repeat_str "=" 70;
            "CNAME CONFIGURATION UPDATE FOR SERVICE PROVIDERS";
            repeat_str "=" 70 +:+ newline]
           {| table := rows; actions := [] |} in
  match providers_with_domains (table st) with
  | [] => print "✗ No providers with custom domains found" st
  | _ :: _ =>
      let st :=
        print ("Found "
               +:+ str_of_nat (List.length (providers_with_domains (table st)))
               +:+ " provider(s) with custom domains" +:+ newline) st in
      let st :=
        fold_left (fun st provider => update_provider provider st)
                  (providers_with_domains (table st)) st in
      prints
        [newline +:+ "📌 QUICK REFERENCE - CNAME TARGET FORMAT:";
         repeat_str "=" 70;
         "Each provider should point their custom domain to:"
           +:+ " <provider-slug>." +:+ base_domain;
         "Example: ramesh-salon." +:+ base_domain;
         repeat_str "=" 70 +:+ newline] st
  end.
End Script.

(** The [save] calls among some actions *)
Fixpoint saves (l : list action) : list (nat * list string) :=
  match l with
  | [] => []
  | Save key update_fields :: l' => (key, update_fields) :: saves l'
  | Print _ :: l' => saves l'
  end.

(** The fields of [p] that differ from what the helpers generate, in the
    order the script compares them *)
Definition stale_fields (gen_cname gen_txt : provider -> string)
    (p : provider) : list string :=
  (if bool_decide (cname_target p = Some (gen_cname p)) then []
   else ["cname_target"])
  ++ (if bool_decide (txt_record_name p = Some (gen_txt p)) then []
      else ["txt_record_name"]).

(** What one pass of the loop body for the provider [p] does to a row
    of the table: the row with the key of [p] takes the fields of [p]
    that were stale. *)
Definition refreshed (gen_cname gen_txt : provider -> string)
    (p row : provider) : provider :=
  if Nat.eqb (pk row) (pk p) then
    let row :=
      if bool_decide (cname_target p = Some (gen_cname p)) then row
      else set_cname_target row (Some (gen_cname p)) in
    if bool_decide (txt_record_name p = Some (gen_txt p)) then row
    else set_txt_record_name row (Some (gen_txt p))
  else row.

(** A row with both targets as the helpers generate them *)
Definition with_targets (gen_cname gen_txt : provider -> string)
    (p : provider) : provider :=
  set_txt_record_name (set_cname_target p (Some (gen_cname p)))
                      (Some (gen_txt p)).

(** A small table: one provider without a custom domain, one whose
    targets are missing, one whose targets are current. *)
Definition slug_target (p : provider) : string :=
  "provider-" +:+ str_of_nat (pk p) +:+ ".nextslot.in".

Definition slug_txt (p : provider) : string :=
  "_nextslot-verify-" +:+ str_of_nat (pk p).

Definition row (key : nat) (domain : option string)
    (cname txt : option string) : provider :=
  {| pk := key; business_name := FStr "Ramesh Salon";
     custom_domain := domain; custom_domain_type := FStr "subdomain";
     domain_verified := FBool false; ssl_enabled := FBool false;
     cname_target := cname; txt_record_name := txt |}.

Definition sample : list provider :=
  [row 1 None None None;
   row 2 (Some "book.ramesh.example") None None;
   row 3 (Some "book.okmentor.example")
         (Some "provider-3.nextslot.in") (Some "_nextslot-verify-3")].

End CnameConfig.

(** * Properties *)

(** Case analysis on the test of the outermost conditional of the goal. *)
Ltac case_if :=
  match goal with
  | |- context [if ?b then _ else _] => destruct b eqn:?
  end.

(** ** Strings and [splitext] *)

Section StringFacts.
Import PyStr OsPath.

Lemma truthy_true (s : string) : truthy s = true <-> s <> EmptyString.
Proof. destruct s; simpl; split; congruence. Qed.

Lemma truthy_append_sep (a b : string) : truthy (a +:+ "/" +:+ b) = true.
Proof. destruct a; reflexivity. Qed.

Lemma take_nonempty (n : nat) (s : string) :
  n <> 0 -> s <> EmptyString -> take n s <> EmptyString.
Proof. destruct n, s; simpl; congruence. Qed.

Lemma has_non_dot_nonempty (s : string) :
  has_non_dot s = true -> s <> EmptyString.
Proof. destruct s; simpl; congruence. Qed.

Lemma take_zero (s : string) : take 0 s = EmptyString.
Proof. destruct s; reflexivity. Qed.

(** The root that [splitext] returns is empty only for the empty path:
    an extension is split off only after a character that is not a dot. *)
Lemma splitext_root_nonempty (p : string) :
  p <> EmptyString -> fst (splitext p) <> EmptyString.
Proof.
  intros Hp. unfold splitext.
  destruct (_ && _) eqn:Hc; simpl; [|exact Hp].
  apply andb_true_iff in Hc as [_ Hnd].
  apply has_non_dot_nonempty in Hnd. unfold slice in Hnd.
  apply take_nonempty; [|exact Hp].
  intros Hz. rewrite Hz in Hnd. simpl in Hnd.
  now apply Hnd.
Qed.

Lemma append_cons (a : ascii) (s t : string) :
  String a s +:+ t = String a (s +:+ t).
Proof. reflexivity. Qed.

Lemma append_nil_r (s : string) : s +:+ EmptyString = s.
Proof.
  induction s as [|a s IH]; [reflexivity | now rewrite append_cons, IH].
Qed.

(** [root + ext == p] *)
Lemma take_drop (n : nat) (s : string) : take n s +:+ drop n s = s.
Proof.
  revert s. induction n as [|n IH]; intros [|a s]; simpl; try reflexivity.
  now rewrite append_cons, IH.
Qed.

Lemma splitext_append (p : string) :
  fst (splitext p) +:+ snd (splitext p) = p.
Proof.
  unfold splitext. destruct (_ && _); simpl.
  - apply take_drop.
  - apply append_nil_r.
Qed.
End StringFacts.

(** ** Identifier extraction never comes back empty-handed *)

Section PublicIdFacts.
Import PyStr OsPath PublicId.
Variable cfg : settings.

Lemma extract_empty : _extract_public_id cfg EmptyString = None.
Proof. reflexivity. Qed.

Lemma extract_nonempty (name : string) :
  name <> EmptyString ->
  exists public_id,
    _extract_public_id cfg name = Some public_id
    /\ truthy public_id = true.
Proof.
  intros Hname. unfold _extract_public_id.
  assert (Hroot : truthy (fst (splitext name)) = true)
    by (apply truthy_true, splitext_root_nonempty, Hname).
  apply truthy_true in Hname. rewrite Hname. simpl.
  repeat case_if; eauto using truthy_append_sep.
Qed.
End PublicIdFacts.

(** ** How each operation runs *)

Section Runs.
Import PyStr Eff CloudinaryStorage.
Context {W : Type}.
Variable api : Cloudinary W.
Variable cfg : settings.

Lemma delete_run (name public_id : string) (s : state W) :
  name <> EmptyString ->
  _extract_public_id cfg name = Some public_id ->
  truthy public_id = true ->
  CloudinaryStorage.delete api cfg name s =
    let ev := Destroy public_id destroy_kwargs in
    match uploader_destroy api public_id destroy_kwargs (remote s) with
    | (Ok _, w) => (Ok tt, after s w [ev])
    | (Raised (NotFound _), w) => (Ok tt, after s w [ev])
    | (Raised (Error m), w) =>
        (Ok tt,
         after s w [ev; Log WARNING ("Failed to delete " +:+ name
                                     +:+ " from Cloudinary: " +:+ m)])
    end.
Proof.
  intros Hname Hex Ht. apply truthy_true in Hname.
  unfold CloudinaryStorage.delete. rewrite Hname, Hex, Ht. simpl.
  unfold try_except, bind, call, ret, log, emit, after.
  destruct (uploader_destroy _ _ _ _) as [[r|[m|m]] w]; simpl;
    try reflexivity.
  now rewrite <- app_assoc.
Qed.

Lemma exists_run (name public_id : string) (s : state W) :
  name <> EmptyString ->
  _extract_public_id cfg name = Some public_id ->
  truthy public_id = true ->
  CloudinaryStorage.exists_ api cfg name s =
    let ev := Resource public_id resource_kwargs in
    match api_resource api public_id resource_kwargs (remote s) with
    | (Ok _, w) => (Ok true, after s w [ev])
    | (Raised (NotFound _), w) => (Ok false, after s w [ev])
    | (Raised (Error m), w) =>
        (Ok false,
         after s w [ev; Log DEBUG ("Error checking existence of " +:+ name
                                   +:+ ": " +:+ m)])
    end.
Proof.
  intros Hname Hex Ht. apply truthy_true in Hname.
  unfold CloudinaryStorage.exists_. rewrite Hname, Hex, Ht. simpl.
  unfold try_except, bind, call, ret, log, emit, after.
  destruct (api_resource _ _ _ _) as [[r|[m|m]] w]; simpl;
    try reflexivity.
  now rewrite <- app_assoc.
Qed.

Lemma size_run (name public_id : string) (s : state W) :
  name <> EmptyString ->
  _extract_public_id cfg name = Some public_id ->
  truthy public_id = true ->
  CloudinaryStorage.size api cfg name s =
    let ev := Resource public_id resource_kwargs in
    match api_resource api public_id resource_kwargs (remote s) with
    | (Ok r, w) => (Ok (get_bytes r), after s w [ev])
    | (Raised (NotFound _), w) => (Ok (VInt 0), after s w [ev])
    | (Raised (Error m), w) =>
        (Ok (VInt 0),
         after s w [ev; Log DEBUG ("Error getting size for " +:+ name
                                   +:+ ": " +:+ m)])
    end.
Proof.
  intros Hname Hex Ht. apply truthy_true in Hname.
  unfold CloudinaryStorage.size. rewrite Hname, Hex, Ht. simpl.
  unfold try_except, bind, call, ret, log, emit, after.
  destruct (api_resource _ _ _ _) as [[r|[m|m]] w]; simpl;
    try reflexivity.
  now rewrite <- app_assoc.
Qed.

Lemma url_with_run (options : gmap string pyval) (what : string)
    (name public_id : string) (s : state W) :
  name <> EmptyString ->
  _extract_public_id cfg name = Some public_id ->
  truthy public_id = true ->
  url_with api cfg options what name s =
    let ev := BuildUrl public_id options in
    match build_url api public_id options with
    | Ok u => (Ok u, after s (remote s) [ev])
    | Raised e =>
        (Ok EmptyString,
         after s (remote s)
               [ev; Log WARNING ("Failed to generate " +:+ what +:+ " for "
                                 +:+ name +:+ ": " +:+ str_of_exn e)])
    end.
Proof.
  intros Hname Hex Ht. apply truthy_true in Hname.
  unfold url_with. rewrite Hname, Hex, Ht. simpl.
  unfold try_except, bind, call_local, ret, log, emit, after.
  destruct (build_url _ _ _) as [u|e]; simpl; try reflexivity.
  now rewrite <- app_assoc.
Qed.

Lemma url_with_empty (options : gmap string pyval) (what : string)
    (s : state W) :
  url_with api cfg options what EmptyString s = (Ok EmptyString, s).
Proof. reflexivity. Qed.

(** [delete] returns normally on every input. *)
Lemma delete_returns (name : string) (s : state W) :
  fst (CloudinaryStorage.delete api cfg name s) = Ok tt.
Proof.
  destruct (string_dec name EmptyString) as [->|Hne]; [reflexivity|].
  destruct (extract_nonempty cfg name Hne) as (pid & Hex & Ht).
  rewrite (delete_run name pid s Hne Hex Ht). simpl.
  destruct (uploader_destroy _ _ _ _) as [[r|[m|m]] w]; reflexivity.
Qed.
End Runs.

Section SaveRuns.
Import PyStr OsPath Eff CloudinaryStorage.
Context {W : Type}.
Variable api : Cloudinary W.
Variable cfg : settings.
Variable sanitize_filename : string -> string.

Lemma save_run (u : N) (name : string) (c : content) (s : state W) :
  _save api cfg sanitize_filename u name c s =
    let ev := Upload (read_all c) (_save_upload_options cfg sanitize_filename u name c) in
    match uploader_upload api (read_all c) (_save_upload_options cfg sanitize_filename u name c)
                          (remote s) with
    | (Ok _, w) =>
        (Ok (folder_of cfg +:+ "/"
             +:+ _generate_public_id sanitize_filename u name),
         after s w [ev])
    | (Raised e, w) =>
        let msg := "Failed to upload " +:+ name +:+ " to Cloudinary: "
                     +:+ str_of_exn e in
        (Raised (Error msg), after s w [ev; Log ERROR msg])
    end.
Proof.
  unfold _save.
  unfold try_except, bind, call, ret, log, emit, raise, after.
  destruct (uploader_upload _ _ _ _) as [[r|e] w]; simpl;
    try reflexivity.
  now rewrite <- app_assoc.
Qed.
End SaveRuns.

(** ** The empty reference *)

(** C7.  On the empty reference [url] returns the empty string, [exists]
    returns false, [size] returns 0 and [delete] does nothing; each leaves
    the state as it found it, so neither the service nor the URL builder
    is called and nothing is logged.  The two subclasses' [url] do the
    same. *)
Theorem empty_reference_short_circuits :
  forall (W : Type) (api : Cloudinary W) (cfg : settings) (s : state W),
    CloudinaryStorage.url api cfg "" s = (Ok "", s)
    /\ CloudinaryStorage.exists_ api cfg "" s = (Ok false, s)
    /\ CloudinaryStorage.size api cfg "" s = (Ok (VInt 0), s)
    /\ CloudinaryStorage.delete api cfg "" s = (Ok tt, s)
    /\ CloudinaryMediaStorage.url api cfg "" s = (Ok "", s)
    /\ CloudinaryThumbnailStorage.url api cfg "" s = (Ok "", s).
Proof. intros. repeat split; reflexivity. Qed.

(** ** [delete] *)

(** C5.  [delete] returns normally on every reference, in every state and
    whatever the service does; so does a second [delete] of the same
    reference after the first.  When the service answers "not found" the
    call is recorded and nothing else happens; when it fails in any other
    way a warning is logged and [delete] still returns. *)
Theorem delete_never_raises :
  forall (W : Type) (api : Cloudinary W) (cfg : settings),
    (forall name s, fst (CloudinaryStorage.delete api cfg name s) = Ok tt)
    /\ (forall name s,
          fst ((run CloudinaryStorage.delete api cfg name
                then CloudinaryStorage.delete api cfg name) s) = Ok tt)
    /\ (forall name public_id s m w,
          PublicId._extract_public_id cfg name = Some public_id ->
          uploader_destroy api public_id CloudinaryStorage.destroy_kwargs
                           (remote s) = (Raised (NotFound m), w) ->
          CloudinaryStorage.delete api cfg name s =
            (Ok tt,
             Eff.after s w
               [Destroy public_id CloudinaryStorage.destroy_kwargs]))
    /\ (forall name public_id s m w,
          PublicId._extract_public_id cfg name = Some public_id ->
          uploader_destroy api public_id CloudinaryStorage.destroy_kwargs
                           (remote s) = (Raised (Error m), w) ->
          CloudinaryStorage.delete api cfg name s =
            (Ok tt,
             Eff.after s w
               [Destroy public_id CloudinaryStorage.destroy_kwargs;
                Log WARNING ("Failed to delete " +:+ name
                             +:+ " from Cloudinary: " +:+ m)])).
Proof.
  intros W api cfg.
  assert (Hne : forall name pid,
             PublicId._extract_public_id cfg name = Some pid ->
             name <> "" /\ PyStr.truthy pid = true).
  { intros name pid Hex.
    assert (Hn : name <> "") by (intros ->; discriminate Hex).
    split; [exact Hn|].
    destruct (extract_nonempty cfg name Hn) as (pid' & Hex' & Ht).
    congruence. }
  split; [apply delete_returns|].
  split.
  { intros name s. unfold Eff.bind.
    pose proof (delete_returns api cfg name s) as H1.
    destruct (CloudinaryStorage.delete api cfg name s) as [[[]|e] s1];
      simpl in H1; [apply delete_returns | discriminate]. }
  split; intros name pid s m w Hex Hd;
    destruct (Hne name pid Hex) as [Hn Ht];
    rewrite (delete_run api cfg name pid s Hn Hex Ht); simpl;
    now rewrite Hd.
Qed.

(** On the in-memory service with nothing stored, deleting [abc123.png]
    meets "not found"; on the unreachable service the failure is logged. *)
Lemma delete_never_raises_witness :
  CloudinaryStorage.delete TestDouble.api TestDouble.default_settings
    "abc123.png" (TestDouble.start []) =
    (Ok tt,
     Eff.after (TestDouble.start []) []
       [Destroy "media/abc123" CloudinaryStorage.destroy_kwargs])
  /\ CloudinaryStorage.delete TestDouble.offline TestDouble.default_settings
       "abc123.png" (TestDouble.start []) =
       (Ok tt,
        Eff.after (TestDouble.start []) []
          [Destroy "media/abc123" CloudinaryStorage.destroy_kwargs;
           Log WARNING
             "Failed to delete abc123.png from Cloudinary: Connection refused"]).
Proof.
  split.
  - destruct (delete_never_raises _ TestDouble.api
                TestDouble.default_settings) as (_ & _ & H & _).
    eapply H; reflexivity.
  - destruct (delete_never_raises _ TestDouble.offline
                TestDouble.default_settings) as (_ & _ & _ & H).
    apply (H "abc123.png" "media/abc123" (TestDouble.start [])
             "Connection refused" []); reflexivity.
Defined.

(** ** Which operations let a remote failure through *)

Section Swallowing.
Import PyStr Eff CloudinaryStorage.
Context {W : Type}.
Variable api : Cloudinary W.
Variable cfg : settings.

Lemma extract_some_inv (name public_id : string) :
  _extract_public_id cfg name = Some public_id ->
  name <> EmptyString /\ truthy public_id = true.
Proof.
  intros Hex.
  assert (Hn : name <> EmptyString) by (intros ->; discriminate Hex).
  split; [exact Hn|].
  destruct (extract_nonempty cfg name Hn) as (pid' & Hex' & Ht).
  congruence.
Qed.

Lemma exists_returns (name : string) (s : state W) :
  exists b, fst (exists_ api cfg name s) = Ok b.
Proof.
  destruct (string_dec name EmptyString) as [->|Hne]; [now exists false|].
  destruct (extract_nonempty cfg name Hne) as (pid & Hex & Ht).
  rewrite (exists_run api cfg name pid s Hne Hex Ht). simpl.
  destruct (api_resource _ _ _ _) as [[r|[m|m]] w]; simpl; eauto.
Qed.

Lemma size_returns (name : string) (s : state W) :
  exists n, fst (size api cfg name s) = Ok n.
Proof.
  destruct (string_dec name EmptyString) as [->|Hne]; [now exists (VInt 0)|].
  destruct (extract_nonempty cfg name Hne) as (pid & Hex & Ht).
  rewrite (size_run api cfg name pid s Hne Hex Ht). simpl.
  destruct (api_resource _ _ _ _) as [[r|[m|m]] w]; simpl; eauto.
Qed.

Lemma url_with_returns (options : gmap string pyval) (what name : string)
    (s : state W) :
  exists u, fst (url_with api cfg options what name s) = Ok u.
Proof.
  destruct (string_dec name EmptyString) as [->|Hne]; [now exists ""|].
  destruct (extract_nonempty cfg name Hne) as (pid & Hex & Ht).
  rewrite (url_with_run api cfg options what name pid s Hne Hex Ht). simpl.
  destruct (build_url _ _ _) as [u|e]; simpl; eauto.
Qed.

Lemma exists_swallows (name public_id : string) (s : state W) e w :
  _extract_public_id cfg name = Some public_id ->
  api_resource api public_id resource_kwargs (remote s) = (Raised e, w) ->
  fst (exists_ api cfg name s) = Ok false.
Proof.
  intros Hex Hr. destruct (extract_some_inv name public_id Hex) as [Hn Ht].
  rewrite (exists_run api cfg name public_id s Hn Hex Ht). simpl.
  rewrite Hr. now destruct e.
Qed.

Lemma size_swallows (name public_id : string) (s : state W) e w :
  _extract_public_id cfg name = Some public_id ->
  api_resource api public_id resource_kwargs (remote s) = (Raised e, w) ->
  fst (size api cfg name s) = Ok (VInt 0).
Proof.
  intros Hex Hr. destruct (extract_some_inv name public_id Hex) as [Hn Ht].
  rewrite (size_run api cfg name public_id s Hn Hex Ht). simpl.
  rewrite Hr. now destruct e.
Qed.

Lemma url_with_swallows (options : gmap string pyval) (what : string)
    (name public_id : string) (s : state W) e :
  _extract_public_id cfg name = Some public_id ->
  build_url api public_id options = Raised e ->
  fst (url_with api cfg options what name s) = Ok EmptyString.
Proof.
  intros Hex Hr. destruct (extract_some_inv name public_id Hex) as [Hn Ht].
  rewrite (url_with_run api cfg options what name public_id s Hn Hex Ht).
  simpl. now rewrite Hr.
Qed.
End Swallowing.

(** C6.  A failed upload makes [save] raise, and the exception it raises
    wraps the text of the remote one; a successful upload makes it return
    the reference.  [exists], [size], [url] and [delete] return normally
    on every input, and when the call they make fails, with "not found"
    or with anything else, they return false, 0 and the empty string. *)
Theorem remote_failure_surfaces_only_from_save :
  forall (W : Type) (api : Cloudinary W) (cfg : settings)
         (sanitize_filename : string -> string),
    (forall u name c s e w,
        uploader_upload api (CloudinaryStorage.read_all c)
          (CloudinaryStorage._save_upload_options cfg sanitize_filename
             u name c)
          (remote s) = (Raised e, w) ->
        fst (CloudinaryStorage._save api cfg sanitize_filename u name c s) =
          Raised (Error ("Failed to upload " +:+ name +:+ " to Cloudinary: "
                         +:+ str_of_exn e)))
    /\ (forall u name c s,
          (exists ref,
              fst (CloudinaryStorage._save api cfg sanitize_filename
                     u name c s) = Ok ref)
          <-> (exists r w,
                  uploader_upload api (CloudinaryStorage.read_all c)
                    (CloudinaryStorage._save_upload_options cfg
                       sanitize_filename u name c)
                    (remote s) = (Ok r, w)))
    /\ (forall name s,
          (exists b, fst (CloudinaryStorage.exists_ api cfg name s) = Ok b)
          /\ (exists n, fst (CloudinaryStorage.size api cfg name s) = Ok n)
          /\ (exists u, fst (CloudinaryStorage.url api cfg name s) = Ok u)
          /\ fst (CloudinaryStorage.delete api cfg name s) = Ok tt)
    /\ (forall name public_id s e w,
          PublicId._extract_public_id cfg name = Some public_id ->
          api_resource api public_id CloudinaryStorage.resource_kwargs
                       (remote s) = (Raised e, w) ->
          fst (CloudinaryStorage.exists_ api cfg name s) = Ok false
          /\ fst (CloudinaryStorage.size api cfg name s) = Ok (VInt 0))
    /\ (forall name public_id s e,
          PublicId._extract_public_id cfg name = Some public_id ->
          build_url api public_id CloudinaryStorage.url_options = Raised e ->
          fst (CloudinaryStorage.url api cfg name s) = Ok "").
Proof.
  intros W api cfg san. split; [|split; [|split; [|split]]].
  - intros u name c s e w Hup. rewrite save_run. simpl. now rewrite Hup.
  - intros u name c s. rewrite save_run. simpl.
    destruct (uploader_upload _ _ _ _) as [[r|e] w]; simpl; split.
    + eauto.
    + eauto.
    + intros [ref H]. discriminate.
    + intros (r & w' & H). discriminate.
  - intros name s. split; [|split; [|split]].
    + apply exists_returns.
    + apply size_returns.
    + apply url_with_returns.
    + apply delete_returns.
  - intros name pid s e w Hex Hr. split.
    + eapply exists_swallows; eauto.
    + eapply size_swallows; eauto.
  - intros name pid s e Hex Hb. eapply url_with_swallows; eauto.
Qed.

(** On the unreachable service: [save] raises the wrapped error, the
    queries answer with their sentinels. *)
Lemma remote_failure_surfaces_only_from_save_witness :
  fst (CloudinaryStorage._save TestDouble.offline TestDouble.default_settings
         Providers.sanitize_filename 439041101 "My Logo.PNG"
         (TestDouble.uploaded "image/png" "89504e47") (TestDouble.start [])) =
    Raised (Error
      "Failed to upload My Logo.PNG to Cloudinary: Connection refused")
  /\ (fst (CloudinaryStorage.exists_ TestDouble.offline
             TestDouble.default_settings "abc123.png" (TestDouble.start []))
        = Ok false
      /\ fst (CloudinaryStorage.size TestDouble.offline
                TestDouble.default_settings "abc123.png"
                (TestDouble.start [])) = Ok (VInt 0))
  /\ fst (CloudinaryStorage.url TestDouble.offline
            TestDouble.default_settings "abc123.png" (TestDouble.start []))
       = Ok "".
Proof.
  destruct (remote_failure_surfaces_only_from_save _ TestDouble.offline
              TestDouble.default_settings Providers.sanitize_filename)
    as (Hsave & _ & _ & Hquery & Hurl).
  split; [|split].
  - exact (Hsave 439041101%N "My Logo.PNG"
                 (TestDouble.uploaded "image/png" "89504e47")
                 (TestDouble.start []) (Error "Connection refused") []
                 eq_refl).
  - apply (Hquery "abc123.png" "media/abc123" _
                  (Error "Connection refused") []); reflexivity.
  - apply (Hurl "abc123.png" "media/abc123" _
                (Error "Must supply cloud_name")); reflexivity.
Defined.

(** ** The options each [url] hands to the URL builder *)

Section BuilderCalls.
Import PyStr Eff CloudinaryStorage.
Context {W : Type}.
Variable api : Cloudinary W.
Variable cfg : settings.

Lemma builder_calls_app (l1 l2 : list event) :
  builder_calls (l1 ++ l2) = builder_calls l1 ++ builder_calls l2.
Proof.
  induction l1 as [|[] l1 IH]; simpl; try exact IH; [reflexivity|].
  now rewrite IH.
Qed.

(** On a non-empty reference a [url] method calls the builder once, on
    the extracted identifier and with its own options. *)
Lemma url_with_builder_call (options : gmap string pyval) (what : string)
    (name : string) (s : state W) :
  name <> EmptyString ->
  exists public_id,
    _extract_public_id cfg name = Some public_id
    /\ builder_calls (trace (snd (url_with api cfg options what name s))) =
         builder_calls (trace s) ++ [(public_id, options)].
Proof.
  intros Hne. destruct (extract_nonempty cfg name Hne) as (pid & Hex & Ht).
  exists pid. split; [exact Hex|].
  rewrite (url_with_run api cfg options what name pid s Hne Hex Ht). simpl.
  destruct (build_url _ _ _) as [u|e]; simpl;
    now rewrite builder_calls_app.
Qed.
End BuilderCalls.

(** C8.  On every non-empty reference the thumbnail class calls the URL
    builder once, with [width=300], [height=300], [crop="fill"] and
    [gravity="auto"]; the base class calls it once, with [width=2000],
    [height=2000], [crop="limit"] and neither [fetch_format] nor
    [format]. *)
Theorem url_builder_fixed_options :
  forall (W : Type) (api : Cloudinary W) (cfg : settings) (name : string)
         (s : state W),
    name <> "" ->
    exists public_id,
      PublicId._extract_public_id cfg name = Some public_id
      /\ Eff.builder_calls
           (trace (snd (CloudinaryThumbnailStorage.url api cfg name s))) =
           Eff.builder_calls (trace s)
             ++ [(public_id, CloudinaryThumbnailStorage.url_options)]
      /\ CloudinaryThumbnailStorage.url_options !! "width" = Some (VInt 300)
      /\ CloudinaryThumbnailStorage.url_options !! "height" = Some (VInt 300)
      /\ CloudinaryThumbnailStorage.url_options !! "crop"
           = Some (VStr "fill")
      /\ CloudinaryThumbnailStorage.url_options !! "gravity"
           = Some (VStr "auto")
      /\ Eff.builder_calls
           (trace (snd (CloudinaryStorage.url api cfg name s))) =
           Eff.builder_calls (trace s)
             ++ [(public_id, CloudinaryStorage.url_options)]
      /\ CloudinaryStorage.url_options !! "width" = Some (VInt 2000)
      /\ CloudinaryStorage.url_options !! "height" = Some (VInt 2000)
      /\ CloudinaryStorage.url_options !! "crop" = Some (VStr "limit")
      /\ CloudinaryStorage.url_options !! "fetch_format" = None
      /\ CloudinaryStorage.url_options !! "format" = None.
Proof.
  intros W api cfg name s Hne.
  destruct (url_with_builder_call api cfg
              CloudinaryThumbnailStorage.url_options "thumbnail URL"
              name s Hne) as (pid & Hex & Hthumb).
  destruct (url_with_builder_call api cfg
              CloudinaryStorage.url_options "URL" name s Hne)
    as (pid' & Hex' & Hbase).
  assert (pid' = pid) as -> by congruence.
  exists pid. repeat split; try assumption; reflexivity.
Qed.

Lemma url_builder_fixed_options_witness :
  exists public_id,
    PublicId._extract_public_id TestDouble.default_settings "abc123.png"
      = Some public_id
    /\ Eff.builder_calls
         (trace (snd (CloudinaryThumbnailStorage.url TestDouble.api
                        TestDouble.default_settings "abc123.png"
                        (TestDouble.start [])))) =
         Eff.builder_calls (trace (TestDouble.start []))
           ++ [(public_id, CloudinaryThumbnailStorage.url_options)]
    /\ CloudinaryThumbnailStorage.url_options !! "width" = Some (VInt 300)
    /\ CloudinaryThumbnailStorage.url_options !! "height" = Some (VInt 300)
    /\ CloudinaryThumbnailStorage.url_options !! "crop" = Some (VStr "fill")
    /\ CloudinaryThumbnailStorage.url_options !! "gravity"
         = Some (VStr "auto")
    /\ Eff.builder_calls
         (trace (snd (CloudinaryStorage.url TestDouble.api
                        TestDouble.default_settings "abc123.png"
                        (TestDouble.start [])))) =
         Eff.builder_calls (trace (TestDouble.start []))
           ++ [(public_id, CloudinaryStorage.url_options)]
    /\ CloudinaryStorage.url_options !! "width" = Some (VInt 2000)
    /\ CloudinaryStorage.url_options !! "height" = Some (VInt 2000)
    /\ CloudinaryStorage.url_options !! "crop" = Some (VStr "limit")
    /\ CloudinaryStorage.url_options !! "fetch_format" = None
    /\ CloudinaryStorage.url_options !! "format" = None.
Proof.
  apply (url_builder_fixed_options _ TestDouble.api
           TestDouble.default_settings "abc123.png" (TestDouble.start [])).
  discriminate.
Defined.

(** C1, as the code has it.  On every non-empty reference each of the
    three classes calls the URL builder once, and none of the three option
    sets carries [fetch_format]: the thumbnail class passes quality, crop,
    width, height and gravity only.  ([fetch_format="auto"] survives in
    the attributes [thumbnail_transformations] and
    [default_transformations], which no method reads.) *)
Theorem no_variant_passes_fetch_format :
  forall (W : Type) (api : Cloudinary W) (cfg : settings) (name : string)
         (s : state W),
    name <> "" ->
    exists public_id,
      PublicId._extract_public_id cfg name = Some public_id
      /\ (exists options,
             Eff.builder_calls
               (trace (snd (CloudinaryThumbnailStorage.url api cfg name s))) =
               Eff.builder_calls (trace s) ++ [(public_id, options)]
             /\ options !! "fetch_format" = None
             /\ dom options =
                  {["secure"; "resource_type"; "quality"; "crop"; "width";
                    "height"; "gravity"]})
      /\ (exists options,
             Eff.builder_calls
               (trace (snd (CloudinaryMediaStorage.url api cfg name s))) =
               Eff.builder_calls (trace s) ++ [(public_id, options)]
             /\ options !! "fetch_format" = None)
      /\ (exists options,
             Eff.builder_calls
               (trace (snd (CloudinaryStorage.url api cfg name s))) =
               Eff.builder_calls (trace s) ++ [(public_id, options)]
             /\ options !! "fetch_format" = None).
Proof.
  intros W api cfg name s Hne.
  destruct (url_with_builder_call api cfg
              CloudinaryThumbnailStorage.url_options "thumbnail URL"
              name s Hne) as (pid & Hex & Hthumb).
  destruct (url_with_builder_call api cfg
              CloudinaryMediaStorage.url_options "media URL" name s Hne)
    as (pid1 & Hex1 & Hmedia).
  destruct (url_with_builder_call api cfg
              CloudinaryStorage.url_options "URL" name s Hne)
    as (pid2 & Hex2 & Hbase).
  assert (pid1 = pid) as -> by congruence.
  assert (pid2 = pid) as -> by congruence.
  exists pid. split; [exact Hex|]. split; [|split].
  - exists CloudinaryThumbnailStorage.url_options.
    split; [exact Hthumb|]. split; [reflexivity|].
    unfold CloudinaryThumbnailStorage.url_options.
    rewrite !dom_insert_L, dom_empty_L. set_solver.
  - exists CloudinaryMediaStorage.url_options.
    split; [exact Hmedia | reflexivity].
  - exists CloudinaryStorage.url_options.
    split; [exact Hbase | reflexivity].
Qed.

(** The three classes on the stored reference [media/logo_1a2b3c4d]. *)
Lemma no_variant_passes_fetch_format_witness :
  exists public_id,
    PublicId._extract_public_id TestDouble.default_settings
      "media/logo_1a2b3c4d" = Some public_id
    /\ (exists options,
           Eff.builder_calls
             (trace (snd (CloudinaryThumbnailStorage.url TestDouble.api
                            TestDouble.default_settings
                            "media/logo_1a2b3c4d" (TestDouble.start [])))) =
             Eff.builder_calls (trace (TestDouble.start []))
               ++ [(public_id, options)]
           /\ options !! "fetch_format" = None).
Proof.
  destruct (no_variant_passes_fetch_format _ TestDouble.api
              TestDouble.default_settings "media/logo_1a2b3c4d"
              (TestDouble.start []))
    as (pid & Hex & (options & Hcall & Hnone & _) & _); [discriminate|].
  exists pid. split; [exact Hex|].
  exists options. split; assumption.
Defined.

(** C1, as stated, fails: for the stored reference [media/logo_1a2b3c4d]
    the thumbnail class makes one call to the URL builder, and the options
    of that call have no [fetch_format] entry. *)
Lemma thumbnail_fetch_format_counterexample :
  Eff.builder_calls
    (trace (snd (CloudinaryThumbnailStorage.url TestDouble.api
                   TestDouble.default_settings "media/logo_1a2b3c4d"
                   (TestDouble.start [])))) =
    [("media/logo_1a2b3c4d", CloudinaryThumbnailStorage.url_options)]
  /\ CloudinaryThumbnailStorage.url_options !! "fetch_format" = None
  /\ CloudinaryThumbnailStorage.url_options !! "fetch_format"
       <> Some (VStr "auto").
Proof. repeat split. discriminate. Qed.

(** ** The media class builds the same URL as the base class *)

(** C9.  For every reference and in every state, [url] of the media class
    returns what [url] of the base class returns and leaves the service in
    the same state; the two option sets are equal, and the calls to the
    URL builder are the same.  (The two differ in the text of the warning
    they log when the builder fails.) *)
Theorem media_url_equals_base_url :
  forall (W : Type) (api : Cloudinary W) (cfg : settings) (name : string)
         (s : state W),
    fst (CloudinaryMediaStorage.url api cfg name s)
      = fst (CloudinaryStorage.url api cfg name s)
    /\ remote (snd (CloudinaryMediaStorage.url api cfg name s))
         = remote (snd (CloudinaryStorage.url api cfg name s))
    /\ Eff.builder_calls
         (trace (snd (CloudinaryMediaStorage.url api cfg name s)))
         = Eff.builder_calls
             (trace (snd (CloudinaryStorage.url api cfg name s)))
    /\ CloudinaryMediaStorage.url_options = CloudinaryStorage.url_options.
Proof.
  intros W api cfg name s.
  unfold CloudinaryMediaStorage.url, CloudinaryStorage.url.
  change CloudinaryMediaStorage.url_options
    with CloudinaryStorage.url_options.
  destruct (string_dec name "") as [->|Hne].
  - repeat split; reflexivity.
  - destruct (extract_nonempty cfg name Hne) as (pid & Hex & Ht).
    rewrite !(url_with_run api cfg _ _ name pid s Hne Hex Ht). simpl.
    destruct (build_url _ _ _) as [u|e]; simpl;
      rewrite ?builder_calls_app; repeat split; reflexivity.
Qed.

(** ** No fallback on a non-empty reference *)

(** C10.  For every non-empty reference, identifier extraction returns a
    string, and a non-empty one.  So [exists] and [size] go on to ask the
    service about that identifier and [url] goes on to call the builder
    with it: the branches for a missing identifier are not taken. *)
Theorem extraction_nonempty_on_nonempty :
  forall (cfg : settings) (name : string),
    name <> "" ->
    exists public_id,
      PublicId._extract_public_id cfg name = Some public_id
      /\ public_id <> ""
      /\ forall (W : Type) (api : Cloudinary W) (s : state W),
           Eff.remote_calls
             (trace (snd (CloudinaryStorage.exists_ api cfg name s))) =
             Eff.remote_calls (trace s)
               ++ [Resource public_id CloudinaryStorage.resource_kwargs]
           /\ Eff.remote_calls
                (trace (snd (CloudinaryStorage.size api cfg name s))) =
                Eff.remote_calls (trace s)
                  ++ [Resource public_id CloudinaryStorage.resource_kwargs]
           /\ Eff.builder_calls
                (trace (snd (CloudinaryStorage.url api cfg name s))) =
                Eff.builder_calls (trace s)
                  ++ [(public_id, CloudinaryStorage.url_options)].
Proof.
  intros cfg name Hne.
  destruct (extract_nonempty cfg name Hne) as (pid & Hex & Ht).
  exists pid. split; [exact Hex|]. split; [now apply truthy_true|].
  intros W api s. split; [|split].
  - rewrite (exists_run api cfg name pid s Hne Hex Ht). simpl.
    unfold Eff.remote_calls.
    destruct (api_resource _ _ _ _) as [[r|[m|m]] w]; simpl;
      now rewrite List.filter_app.
  - rewrite (size_run api cfg name pid s Hne Hex Ht). simpl.
    unfold Eff.remote_calls.
    destruct (api_resource _ _ _ _) as [[r|[m|m]] w]; simpl;
      now rewrite List.filter_app.
  - destruct (url_with_builder_call api cfg CloudinaryStorage.url_options
                "URL" name s Hne) as (pid' & Hex' & Hb).
    assert (pid' = pid) as -> by congruence. exact Hb.
Qed.

Lemma extraction_nonempty_on_nonempty_witness :
  exists public_id,
    PublicId._extract_public_id TestDouble.folder_settings "abc123.png"
      = Some public_id
    /\ public_id <> "".
Proof.
  destruct (extraction_nonempty_on_nonempty TestDouble.folder_settings
              "abc123.png") as (pid & Hex & Hne & _); [discriminate|].
  exists pid. split; assumption.
Defined.

(** ** Splitting on the separator *)

Section SplitFacts.
Import PyStr.

Lemma split_not_nil (c : ascii) (s : string) : split c s <> [].
Proof.
  induction s as [|a s IH]; simpl; [discriminate|].
  destruct (Ascii.eqb a c); [discriminate|].
  destruct (split c s); [contradiction | discriminate].
Qed.

(** [len(s.split(c)) >= 2] as soon as [c] occurs in [s]. *)
Lemma split_length_has_char (c : ascii) (s : string) :
  has_char c s = true -> 2 <= List.length (split c s).
Proof.
  induction s as [|a s IH]; simpl; [discriminate|].
  destruct (Ascii.eqb a c); simpl.
  - intros _. pose proof (split_not_nil c s).
    destruct (split c s); [contradiction | simpl; lia].
  - intros H. specialize (IH H).
    destruct (split c s); simpl in *; lia.
Qed.
End SplitFacts.

(** ** The format [save] uploads with *)

Section UploadFormat.
Import PyStr OsPath CloudinaryStorage.

(** The formats the allow-list maps to *)
Lemma format_mapping_values :
  (map_to_list format_mapping).*2
    = ["webp"; "gif"; "svg"; "jpg"; "jpg"; "png"].
Proof. reflexivity. Qed.

Lemma in_values_format_mapping (d : string) :
  in_values d format_mapping = true
  <-> d ∈ ["jpg"; "png"; "gif"; "webp"; "svg"].
Proof.
  unfold in_values. rewrite bool_decide_eq_true, format_mapping_values.
  rewrite !elem_of_cons, !elem_of_nil. tauto.
Qed.

(** The allow-list, entry by entry *)
Lemma format_mapping_lookup (e : string) :
  format_mapping !! e =
    if bool_decide (e = "jpg") then Some "jpg"
    else if bool_decide (e = "jpeg") then Some "jpg"
    else if bool_decide (e = "png") then Some "png"
    else if bool_decide (e = "gif") then Some "gif"
    else if bool_decide (e = "webp") then Some "webp"
    else if bool_decide (e = "svg") then Some "svg"
    else None.
Proof.
  unfold format_mapping.
  repeat (case_bool_decide;
          [subst e; reflexivity | rewrite lookup_insert_ne by congruence]).
  apply lookup_empty.
Qed.

Lemma literal_has_no_format (public_id folder : string) :
  upload_options_literal public_id folder !! "format" = None.
Proof. reflexivity. Qed.

Lemma with_format_lookup (file_ext : string) (content_type : option string)
    (public_id folder : string) :
  with_format file_ext content_type
      (upload_options_literal public_id folder) !! "format" =
    match content_type with
    | Some ct =>
        if has_char sep ct
           && in_values (List.last (split sep ct) "") format_mapping
        then Some (VStr (List.last (split sep ct) ""))
        else VStr <$> format_mapping !! file_ext
    | None => VStr <$> format_mapping !! file_ext
    end.
Proof.
  assert (Hext :
    match format_mapping !! file_ext with
    | Some f => <["format" := VStr f]> (upload_options_literal public_id folder)
    | None => upload_options_literal public_id folder
    end !! "format" = VStr <$> format_mapping !! file_ext).
  { destruct (format_mapping !! file_ext); simpl.
    - apply lookup_insert_eq.
    - apply literal_has_no_format. }
  unfold with_format. destruct content_type as [ct|]; [|exact Hext].
  destruct (has_char sep ct) eqn:Hs.
  - assert (Ht : truthy ct = true) by (destruct ct; [discriminate|reflexivity]).
    rewrite Ht. cbv zeta. simpl andb.
    destruct (in_values _ _); [apply lookup_insert_eq | exact Hext].
  - rewrite andb_false_r. exact Hext.
Qed.
End UploadFormat.

(** C3, as stated, fails: an uploaded file named [photo.png] whose declared
    media type is [image/jpeg] is uploaded with format [png], and one named
    [photo] with the same media type is uploaded with no format at all:
    [jpeg] is a key of the allow-list, not one of the formats it maps
    to. *)
Lemma media_type_jpeg_counterexample :
  CloudinaryStorage._save_upload_options TestDouble.default_settings
    Providers.sanitize_filename 439041101 "photo.png"
    (TestDouble.uploaded "image/jpeg" "ffd8ffe0") !! "format"
    = Some (VStr "png")
  /\ CloudinaryStorage._save_upload_options TestDouble.default_settings
       Providers.sanitize_filename 439041101 "photo"
       (TestDouble.uploaded "image/jpeg" "ffd8ffe0") !! "format"
       = None.
Proof. split; reflexivity. Qed.

(** C3, as the code has it.  [save] makes one upload call.  Its [format]
    comes from the lower-cased extension of the file name through the
    allow-list jpg, jpeg (to jpg), png, gif, webp, svg, and is absent for
    any other extension.  When the content is an uploaded file whose
    declared media type contains a [/] and ends, after its last [/], in
    one of jpg, png, gif, webp, svg, that ending is the format instead.
    In every other case the format from the extension stands. *)
Theorem save_format_from_extension_or_media_type :
  forall (W : Type) (api : Cloudinary W) (cfg : settings)
         (sanitize_filename : string -> string)
         (u : N) (name : string) (c : content) (s : state W),
    let file_ext :=
      PyStr.lstrip OsPath.extsep
        (PyStr.lower (snd (OsPath.splitext name))) in
    let options :=
      CloudinaryStorage._save_upload_options cfg sanitize_filename
        u name c in
    Eff.remote_calls
      (trace (snd (CloudinaryStorage._save api cfg sanitize_filename
                     u name c s))) =
      Eff.remote_calls (trace s)
        ++ [Upload (CloudinaryStorage.read_all c) options]
    /\ (forall e f,
          CloudinaryStorage.format_mapping !! e = Some f
          <-> (e, f) ∈ [("jpg", "jpg"); ("jpeg", "jpg"); ("png", "png");
                        ("gif", "gif"); ("webp", "webp"); ("svg", "svg")])
    /\ (is_uploaded_file c = false \/ content_type_attr c = None ->
        options !! "format"
          = VStr <$> CloudinaryStorage.format_mapping !! file_ext)
    /\ (forall ct,
          is_uploaded_file c = true ->
          content_type_attr c = Some ct ->
          let subtype := List.last (PyStr.split OsPath.sep ct) "" in
          (PyStr.has_char OsPath.sep ct = true ->
           subtype ∈ ["jpg"; "png"; "gif"; "webp"; "svg"] ->
           options !! "format" = Some (VStr subtype))
          /\ (PyStr.has_char OsPath.sep ct = false
              \/ subtype ∉ ["jpg"; "png"; "gif"; "webp"; "svg"] ->
              options !! "format"
                = VStr <$> CloudinaryStorage.format_mapping !! file_ext)).
Proof.
  intros W api cfg san u name c s file_ext options.
  split; [|split; [|split]].
  - rewrite save_run. simpl. unfold Eff.remote_calls.
    destruct (uploader_upload _ _ _ _) as [[r|e] w]; simpl;
      now rewrite List.filter_app.
  - intros e f. rewrite format_mapping_lookup.
    rewrite !elem_of_cons, elem_of_nil.
    repeat case_bool_decide; subst;
      (split; [intros [= <-]; tauto | intros Hin; intuition congruence]).
  - intros Hnone. subst options file_ext.
    unfold CloudinaryStorage._save_upload_options. cbv zeta.
    rewrite with_format_lookup.
    destruct Hnone as [-> | Hattr]; [reflexivity|].
    rewrite Hattr. now destruct (is_uploaded_file c).
  - intros ct Hup Hattr subtype. subst options file_ext.
    unfold CloudinaryStorage._save_upload_options. cbv zeta.
    rewrite with_format_lookup, Hup, Hattr. fold subtype. split.
    + intros Hs Hin. apply in_values_format_mapping in Hin.
      now rewrite Hs, Hin.
    + intros [Hs | Hnin]; [now rewrite Hs|].
      destruct (CloudinaryStorage.in_values subtype _) eqn:Hv.
      * apply in_values_format_mapping in Hv. contradiction.
      * now rewrite andb_false_r.
Qed.

(** A file named [photo.jpeg] declared as [image/png] is uploaded as
    [png]. *)
Lemma save_format_from_extension_or_media_type_witness :
  CloudinaryStorage._save_upload_options TestDouble.default_settings
    Providers.sanitize_filename 439041101 "photo.jpeg"
    (TestDouble.uploaded "image/png" "89504e47") !! "format"
    = Some (VStr "png").
Proof.
  destruct (save_format_from_extension_or_media_type _ TestDouble.api
              TestDouble.default_settings Providers.sanitize_filename
              439041101 "photo.jpeg"
              (TestDouble.uploaded "image/png" "89504e47")
              (TestDouble.start [])) as (_ & _ & _ & H).
  apply (H "image/png"); [reflexivity | reflexivity | reflexivity |].
  apply list_elem_of_In. simpl. tauto.
Defined.

(** ** Characters, [splitext] and the UUID suffix *)

Section CharFacts.
Import PyStr.

Lemma has_char_app (c : ascii) (a b : string) :
  has_char c (a +:+ b) = has_char c a || has_char c b.
Proof.
  induction a as [|x a IH]; [reflexivity|].
  rewrite append_cons. simpl. now rewrite IH, orb_assoc.
Qed.

Lemma all_chars_app (p : ascii -> bool) (a b : string) :
  all_chars p (a +:+ b) = all_chars p a && all_chars p b.
Proof.
  induction a as [|x a IH]; [reflexivity|].
  rewrite append_cons. simpl. now rewrite IH, andb_assoc.
Qed.

(** A character that [p] rejects does not occur in a string whose
    characters all satisfy [p]. *)
Lemma all_chars_excludes (p : ascii -> bool) (c : ascii) (s : string) :
  p c = false -> all_chars p s = true -> has_char c s = false.
Proof.
  intros Hc. induction s as [|a s IH]; simpl; [reflexivity|].
  intros [Ha Hs]%andb_true_iff. rewrite (IH Hs), orb_false_r.
  destruct (Ascii.eqb_spec a c) as [->|]; congruence.
Qed.

Lemma all_chars_take (p : ascii -> bool) (n : nat) (s : string) :
  all_chars p s = true -> all_chars p (take n s) = true.
Proof.
  revert s. induction n as [|n IH]; intros [|a s]; simpl; try reflexivity.
  intros [Ha Hs]%andb_true_iff. now rewrite Ha, IH.
Qed.

Lemma length_app (a b : string) :
  String.length (a +:+ b) = String.length a + String.length b.
Proof.
  induction a as [|x a IH]; [reflexivity|].
  rewrite append_cons. simpl. now rewrite IH.
Qed.

Lemma length_take (n : nat) (s : string) :
  n <= String.length s -> String.length (take n s) = n.
Proof.
  revert s. induction n as [|n IH]; intros [|a s]; simpl; try lia.
  intros H. rewrite IH; lia.
Qed.

Lemma take_app_exact (a b : string) : take (String.length a) (a +:+ b) = a.
Proof.
  induction a as [|x a IH].
  - now destruct b.
  - rewrite append_cons. simpl. now rewrite IH.
Qed.

Lemma drop_app_exact (a b : string) : drop (String.length a) (a +:+ b) = b.
Proof.
  induction a as [|x a IH]; [reflexivity|].
  rewrite append_cons. simpl. exact IH.
Qed.

Lemma rfind_from_absent (c : ascii) (s : string) (i last : Z) :
  has_char c s = false -> rfind_from c s i last = last.
Proof.
  revert i last. induction s as [|a s IH]; intros i last; simpl;
    [reflexivity|].
  intros [Ha Hs]%orb_false_iff. now rewrite Ha, IH.
Qed.

Lemma rfind_from_app (c : ascii) (a b : string) (i last : Z) :
  rfind_from c (a +:+ b) i last =
    rfind_from c b (i + Z.of_nat (String.length a))%Z (rfind_from c a i last).
Proof.
  revert i last. induction a as [|x a IH]; intros i last.
  - simpl. now rewrite Z.add_0_r.
  - rewrite append_cons. simpl rfind_from. rewrite IH. f_equal.
    simpl String.length. lia.
Qed.

Lemma rfind_from_lower (c : ascii) (s : string) (i last : Z) :
  (-1 <= last)%Z -> (0 <= i)%Z -> (-1 <= rfind_from c s i last)%Z.
Proof.
  revert i last. induction s as [|a s IH]; intros i last Hl Hi; simpl;
    [exact Hl|].
  apply IH; [destruct (Ascii.eqb a c)|]; lia.
Qed.
End CharFacts.

Section SplitextFacts.
Import PyStr OsPath.

Lemma has_non_dot_dotless (s : string) :
  s <> EmptyString -> has_char extsep s = false -> has_non_dot s = true.
Proof.
  destruct s as [|a s]; [congruence|]. simpl.
  intros _ [Ha _]%orb_false_iff. now rewrite Ha.
Qed.

(** A path without a dot has no extension. *)
Lemma splitext_dotless (s : string) :
  has_char extsep s = false -> splitext s = (s, EmptyString).
Proof.
  intros Hd. unfold splitext, rfind.
  rewrite (rfind_from_absent extsep s 0 (-1) Hd).
  pose proof (rfind_from_lower sep s 0 (-1)) as Hlow.
  destruct (Z.ltb_spec (rfind_from sep s 0 (-1)) (-1)); [lia | reflexivity].
Qed.

(** A stem and an extension without dots or separators of their own are
    split where they were joined. *)
Lemma splitext_joined (stem rest : string) :
  stem <> EmptyString ->
  has_char extsep stem = false -> has_char sep stem = false ->
  has_char extsep rest = false -> has_char sep rest = false ->
  splitext (stem +:+ String extsep rest) = (stem, String extsep rest).
Proof.
  intros Hne Hds Hss Hdr Hsr. unfold splitext, rfind.
  assert (Hsep : rfind_from sep (stem +:+ String extsep rest) 0 (-1)
                 = (-1)%Z).
  { apply rfind_from_absent. rewrite has_char_app, Hss. simpl.
    exact Hsr. }
  assert (Hdot : rfind_from extsep (stem +:+ String extsep rest) 0 (-1)
                 = Z.of_nat (String.length stem)).
  { rewrite rfind_from_app, (rfind_from_absent extsep stem 0 (-1) Hds).
    simpl. now rewrite rfind_from_absent. }
  rewrite Hsep, Hdot. simpl Z.add. rewrite Nat2Z.id.
  destruct (Z.ltb_spec (-1) (Z.of_nat (String.length stem))); [|lia].
  unfold slice. simpl drop. rewrite Nat.sub_0_r, take_app_exact.
  rewrite (has_non_dot_dotless stem Hne Hds). simpl.
  now rewrite drop_app_exact.
Qed.
End SplitextFacts.

Section UuidFacts.
Import PyStr Uuid.

Lemma hex_digit_lower (d : N) : is_lower_hex (hex_digit (d mod 16)) = true.
Proof.
  assert (Hlt : (d mod 16 < 16)%N) by (apply N.mod_lt; discriminate).
  unfold hex_digit.
  assert (Hn : N.to_nat (d mod 16) < 16) by lia.
  destruct (N.to_nat (d mod 16)) as [|n]; [reflexivity|].
  do 15 (destruct n as [|n]; [reflexivity|]). lia.
Qed.

Lemma hex_fixed_length (width : nat) (n : N) :
  String.length (hex_fixed width n) = width.
Proof.
  revert n. induction width as [|w IH]; intros n; simpl; [reflexivity|].
  rewrite length_app, IH. simpl. lia.
Qed.

Lemma hex_fixed_lower (width : nat) (n : N) :
  all_chars is_lower_hex (hex_fixed width n) = true.
Proof.
  revert n. induction width as [|w IH]; intros n; simpl; [reflexivity|].
  rewrite all_chars_app, IH. simpl. now rewrite hex_digit_lower.
Qed.

(** [str(uuid)[:8]] is the first eight hexadecimal digits. *)
Lemma str_prefix (u : N) : take 8 (Uuid.str u) = take 8 (hex_fixed 32 u).
Proof.
  unfold Uuid.str, slice at 1. simpl drop at 1.
  change (8 - 0) with 8.
  assert (Hlen : String.length (take 8 (hex_fixed 32 u)) = 8)
    by (apply length_take; rewrite hex_fixed_length; lia).
  rewrite <- Hlen at 1. apply take_app_exact.
Qed.

Lemma unique_id_shape (u : N) :
  String.length (take 8 (Uuid.str u)) = 8
  /\ all_chars is_lower_hex (take 8 (Uuid.str u)) = true.
Proof.
  rewrite str_prefix. split.
  - apply length_take. rewrite hex_fixed_length. lia.
  - apply all_chars_take, hex_fixed_lower.
Qed.
End UuidFacts.

(** ** Worked examples *)

Example splitext_png : OsPath.splitext "abc123.png" = ("abc123", ".png").
Proof. reflexivity. Qed.

Example splitext_dotfile : OsPath.splitext ".bashrc" = (".bashrc", "").
Proof. reflexivity. Qed.

Example splitext_dir_dot : OsPath.splitext "a.b/c" = ("a.b/c", "").
Proof. reflexivity. Qed.

Example splitext_last_only :
  OsPath.splitext "x/archive.tar.gz" = ("x/archive.tar", ".gz").
Proof. reflexivity. Qed.

Example uuid_str :
  Uuid.str 0x1a2b3c4d5e6f408192a3b4c5d6e7f809
    = "1a2b3c4d-5e6f-4081-92a3-b4c5d6e7f809".
Proof. reflexivity. Qed.

Example save_my_logo :
  fst (CloudinaryStorage._save TestDouble.api TestDouble.default_settings
         Providers.sanitize_filename
         0x1a2b3c4d5e6f408192a3b4c5d6e7f809 "My Logo.PNG"
         (TestDouble.uploaded "image/png" "89504e47")
         (TestDouble.start []))
    = Ok "media/my-logo_1a2b3c4d".
Proof. reflexivity. Qed.

Example exists_after_save_then_delete :
  let cfg := TestDouble.default_settings in
  let api := TestDouble.api in
  let session :=
    (let* ref := CloudinaryStorage._save api cfg Providers.sanitize_filename
                   0x1a2b3c4d5e6f408192a3b4c5d6e7f809 "My Logo.PNG"
                   (TestDouble.uploaded "image/png" "89504e47") in
     let* before := CloudinaryStorage.exists_ api cfg ref in
     run CloudinaryStorage.delete api cfg ref then
     let* afterwards := CloudinaryStorage.exists_ api cfg ref in
     Eff.ret (before, afterwards)) in
  fst (session (TestDouble.start [])) = Ok (true, false).
Proof. reflexivity. Qed.

(** * Further properties of the storage classes *)

(** ** More on [rfind] and [splitext] *)

Section RfindFacts.
Import PyStr OsPath.

(** [rfind] either keeps the index it started with or lands inside the
    string. *)
Lemma rfind_from_range (c : ascii) (s : string) (i last : Z) :
  rfind_from c s i last = last
  \/ (i <= rfind_from c s i last < i + Z.of_nat (String.length s))%Z.
Proof.
  revert i last. induction s as [|a s IH]; intros i last; simpl rfind_from;
    [now left|].
  simpl String.length.
  destruct (IH (i + 1)%Z (if Ascii.eqb a c then i else last)) as [-> | H].
  - destruct (Ascii.eqb a c); [right; lia | now left].
  - right. lia.
Qed.

Lemma rfind_from_found (c : ascii) (s : string) (i last : Z) :
  has_char c s = true ->
  (i <= rfind_from c s i last < i + Z.of_nat (String.length s))%Z.
Proof.
  revert i last. induction s as [|a s IH]; intros i last; simpl has_char;
    [discriminate|].
  simpl rfind_from. simpl String.length.
  destruct (Ascii.eqb a c); simpl orb.
  - intros _. destruct (rfind_from_range c s (i + 1) i) as [-> | H]; lia.
  - intros H. specialize (IH (i + 1)%Z last H). lia.
Qed.

(** The last occurrence splits the string: nothing after it is [c]. *)
Lemma rfind_from_split (c : ascii) (s : string) (i last : Z) :
  (has_char c s = false /\ rfind_from c s i last = last)
  \/ exists a b,
       s = a +:+ String c b /\ has_char c b = false
       /\ rfind_from c s i last = (i + Z.of_nat (String.length a))%Z.
Proof.
  revert i last. induction s as [|x s IH]; intros i last; [now left|].
  simpl rfind_from. simpl has_char.
  destruct (IH (i + 1)%Z (if Ascii.eqb x c then i else last))
    as [[Hno Hr] | (a & b & -> & Hb & Hr)].
  - destruct (Ascii.eqb_spec x c) as [->|Hx].
    + right. exists EmptyString, s. rewrite Hr. simpl. split; [reflexivity|].
      split; [exact Hno | lia].
    + left. now rewrite Hno, Hr.
  - right. exists (String x a), b. rewrite Hr, append_cons.
    split; [reflexivity|]. split; [exact Hb|]. simpl String.length. lia.
Qed.

Lemma has_char_cons (c x : ascii) (s : string) :
  has_char c (String x s) = Ascii.eqb x c || has_char c s.
Proof. reflexivity. Qed.

(** What [splitext] splits off is empty, or a dot followed by characters
    that are neither dots nor separators. *)
Lemma splitext_ext_shape (p : string) :
  snd (splitext p) = EmptyString
  \/ exists rest,
       snd (splitext p) = String extsep rest
       /\ has_char extsep rest = false /\ has_char sep rest = false.
Proof.
  unfold splitext, rfind.
  destruct (_ && _) eqn:Hc; [|now left]. right. simpl snd.
  apply andb_true_iff in Hc as [Hlt _]. apply Z.ltb_lt in Hlt.
  destruct (rfind_from_split extsep p 0 (-1))
    as [[_ Hr] | (a & b & -> & Hb & Hr)].
  - pose proof (rfind_from_lower sep p 0 (-1)). lia.
  - rewrite Hr in *. rewrite Z.add_0_l in *.
    rewrite Nat2Z.id, drop_app_exact.
    exists b. split; [reflexivity|]. split; [exact Hb|].
    destruct (has_char sep b) eqn:Hs; [|reflexivity]. exfalso.
    rewrite rfind_from_app in Hlt.
    assert (Hin : has_char sep (String extsep b) = true)
      by (rewrite has_char_cons, Hs; apply orb_true_r).
    assert (Hfirst : rfind_from sep (String extsep b)
                       (0 + Z.of_nat (String.length a))
                       (rfind_from sep a 0 (-1))
                     = rfind_from sep b
                         (0 + Z.of_nat (String.length a) + 1)
                         (rfind_from sep a 0 (-1))) by reflexivity.
    rewrite Hfirst in Hlt.
    pose proof (rfind_from_found sep b
                  (0 + Z.of_nat (String.length a) + 1)
                  (rfind_from sep a 0 (-1)) Hs). lia.
Qed.

(** After the last separator of [a/b], a [b] without a dot leaves nothing
    for [splitext] to split off. *)
Lemma splitext_dotless_tail (a b : string) :
  has_char extsep b = false ->
  splitext (a +:+ String sep b) = (a +:+ String sep b, EmptyString).
Proof.
  intros Hb. unfold splitext, rfind.
  assert (Hsep : (Z.of_nat (String.length a)
                  <= rfind_from sep (a +:+ String sep b) 0 (-1))%Z).
  { rewrite rfind_from_app.
    pose proof (rfind_from_found sep (String sep b)
                  (0 + Z.of_nat (String.length a))
                  (rfind_from sep a 0 (-1)) eq_refl). lia. }
  assert (Hdot : (rfind_from extsep (a +:+ String sep b) 0 (-1)
                  < Z.of_nat (String.length a))%Z).
  { rewrite rfind_from_app, rfind_from_absent by exact Hb.
    destruct (rfind_from_range extsep a 0 (-1)) as [-> | H]; lia. }
  destruct (Z.ltb_spec (rfind_from sep (a +:+ String sep b) 0 (-1))
                       (rfind_from extsep (a +:+ String sep b) 0 (-1)));
    [lia | reflexivity].
Qed.

Lemma prefix_app (a b : string) : String.prefix a (a +:+ b) = true.
Proof.
  induction a as [|x a IH]; [now destruct b|].
  rewrite append_cons. simpl. now destruct (ascii_dec x x).
Qed.

Lemma prefix_split (a s : string) :
  String.prefix a s = true -> s = a +:+ drop (String.length a) s.
Proof.
  revert s. induction a as [|x a IH]; intros s; [reflexivity|].
  destruct s as [|y s]; simpl; [discriminate|].
  destruct (ascii_dec x y) as [->|]; [|discriminate].
  intros H. rewrite append_cons. f_equal. now apply IH.
Qed.

Lemma append_assoc (a b c : string) : (a +:+ b) +:+ c = a +:+ b +:+ c.
Proof.
  induction a as [|x a IH]; [reflexivity|].
  now rewrite !append_cons, IH.
Qed.

Lemma append_inv_head (a b c : string) : a +:+ b = a +:+ c -> b = c.
Proof.
  induction a as [|x a IH]; [trivial|].
  rewrite !append_cons. intros [= H]. now apply IH.
Qed.
End RfindFacts.

(** ** What the operations ask of the service *)

Section RemoteCalls.
Import PyStr Eff CloudinaryStorage.
Context {W : Type}.
Variable api : Cloudinary W.
Variable cfg : settings.

Lemma url_with_local (options : gmap string pyval) (what name : string)
    (s : state W) :
  remote (snd (url_with api cfg options what name s)) = remote s
  /\ remote_calls (trace (snd (url_with api cfg options what name s)))
     = remote_calls (trace s).
Proof.
  destruct (string_dec name EmptyString) as [->|Hne]; [now split|].
  destruct (extract_nonempty cfg name Hne) as (pid & Hex & Ht).
  rewrite (url_with_run api cfg options what name pid s Hne Hex Ht).
  cbv zeta. unfold remote_calls.
  destruct (build_url _ _ _) as [u|e]; simpl snd; unfold after;
    simpl remote; simpl trace; rewrite List.filter_app; simpl;
    now rewrite app_nil_r.
Qed.
End RemoteCalls.

(** X1.  None of the three [url] methods contacts the hosted service:
    whatever the reference and the state, the service is left as it was
    and no upload, destroy or resource call is recorded.  Building a URL
    is local. *)
Theorem url_makes_no_remote_call :
  forall (W : Type) (api : Cloudinary W) (cfg : settings) (name : string)
         (s : state W),
    (remote (snd (CloudinaryStorage.url api cfg name s)) = remote s
     /\ Eff.remote_calls (trace (snd (CloudinaryStorage.url api cfg name s)))
        = Eff.remote_calls (trace s))
    /\ (remote (snd (CloudinaryMediaStorage.url api cfg name s)) = remote s
        /\ Eff.remote_calls
             (trace (snd (CloudinaryMediaStorage.url api cfg name s)))
           = Eff.remote_calls (trace s))
    /\ (remote (snd (CloudinaryThumbnailStorage.url api cfg name s))
          = remote s
        /\ Eff.remote_calls
             (trace (snd (CloudinaryThumbnailStorage.url api cfg name s)))
           = Eff.remote_calls (trace s)).
Proof.
  intros W api cfg name s. split; [|split]; apply url_with_local.
Qed.

(** X2.  On a non-empty reference [delete] makes exactly one call to the
    service: a destroy of the extracted identifier, as an image and with
    cache invalidation; the service is left in the state that call
    produces. *)
Theorem delete_destroys_extracted_identifier :
  forall (W : Type) (api : Cloudinary W) (cfg : settings) (name : string)
         (s : state W),
    name <> "" ->
    exists public_id,
      PublicId._extract_public_id cfg name = Some public_id
      /\ Eff.remote_calls
           (trace (snd (CloudinaryStorage.delete api cfg name s)))
         = Eff.remote_calls (trace s)
             ++ [Destroy public_id CloudinaryStorage.destroy_kwargs]
      /\ remote (snd (CloudinaryStorage.delete api cfg name s))
         = snd (uploader_destroy api public_id
                  CloudinaryStorage.destroy_kwargs (remote s))
      /\ CloudinaryStorage.destroy_kwargs !! "resource_type"
         = Some (VStr "image")
      /\ CloudinaryStorage.destroy_kwargs !! "invalidate"
         = Some (VBool true).
Proof.
  intros W api cfg name s Hne.
  destruct (extract_nonempty cfg name Hne) as (pid & Hex & Ht).
  exists pid. split; [exact Hex|].
  rewrite (delete_run api cfg name pid s Hne Hex Ht). cbv zeta.
  unfold Eff.remote_calls.
  destruct (uploader_destroy _ _ _ _) as [[r|[m|m]] w]; simpl snd;
    unfold Eff.after; simpl remote; simpl trace;
    rewrite List.filter_app; repeat split; reflexivity.
Qed.

Lemma delete_destroys_extracted_identifier_witness :
  Eff.remote_calls
    (trace (snd (CloudinaryStorage.delete TestDouble.api
                   TestDouble.default_settings "media/logo_1a2b3c4d.png"
                   (TestDouble.start ["media/logo_1a2b3c4d"]))))
    = [Destroy "media/logo_1a2b3c4d" CloudinaryStorage.destroy_kwargs].
Proof.
  destruct (delete_destroys_extracted_identifier _ TestDouble.api
              TestDouble.default_settings "media/logo_1a2b3c4d.png"
              (TestDouble.start ["media/logo_1a2b3c4d"]))
    as (pid & Hex & Hcalls & _); [discriminate|].
  rewrite Hcalls. injection Hex as <-. reflexivity.
Defined.

(** X3.  [exists] answers true exactly when the reference is not empty
    and the service describes the extracted identifier without raising;
    in every other case it answers false. *)
Theorem exists_true_iff_resource_found :
  forall (W : Type) (api : Cloudinary W) (cfg : settings) (name : string)
         (s : state W),
    (fst (CloudinaryStorage.exists_ api cfg name s) = Ok true
     <-> exists public_id r w,
           PublicId._extract_public_id cfg name = Some public_id
           /\ api_resource api public_id CloudinaryStorage.resource_kwargs
                (remote s) = (Ok r, w))
    /\ (fst (CloudinaryStorage.exists_ api cfg name s) = Ok true
        \/ fst (CloudinaryStorage.exists_ api cfg name s) = Ok false).
Proof.
  intros W api cfg name s.
  destruct (string_dec name "") as [->|Hne].
  - split; [|now right]. split; [discriminate|].
    intros (pid & r & w & Hex & _). discriminate.
  - destruct (extract_nonempty cfg name Hne) as (pid & Hex & Ht).
    rewrite (exists_run api cfg name pid s Hne Hex Ht). cbv zeta.
    destruct (api_resource api pid _ (remote s)) as [[r|[m|m]] w] eqn:Hr;
      simpl fst; (split; [|auto]); split; try discriminate; eauto;
      intros (pid' & r' & w' & Hex' & Hr'); congruence.
Qed.

(** X4.  When the service describes the identifier, [size] returns the
    [bytes] entry of the description, and 0 when the description has no
    such entry; the service was asked once and nothing was logged. *)
Theorem size_reports_bytes_or_zero :
  forall (W : Type) (api : Cloudinary W) (cfg : settings)
         (name public_id : string) (s : state W) r w,
    PublicId._extract_public_id cfg name = Some public_id ->
    api_resource api public_id CloudinaryStorage.resource_kwargs (remote s)
      = (Ok r, w) ->
    CloudinaryStorage.size api cfg name s =
      (Ok (match r !! "bytes" with Some v => v | None => VInt 0 end),
       Eff.after s w [Resource public_id CloudinaryStorage.resource_kwargs]).
Proof.
  intros W api cfg name pid s r w Hex Hr.
  destruct (extract_some_inv cfg name pid Hex) as [Hne Ht].
  rewrite (size_run api cfg name pid s Hne Hex Ht). cbv zeta.
  now rewrite Hr.
Qed.

Lemma size_reports_bytes_or_zero_witness :
  fst (CloudinaryStorage.size TestDouble.api TestDouble.default_settings
         "logo_1a2b3c4d.png" (TestDouble.start ["media/logo_1a2b3c4d"]))
    = Ok (VInt 1024).
Proof.
  rewrite (size_reports_bytes_or_zero _ TestDouble.api
             TestDouble.default_settings "logo_1a2b3c4d.png"
             "media/logo_1a2b3c4d" (TestDouble.start ["media/logo_1a2b3c4d"])
             (TestDouble.described "media/logo_1a2b3c4d" 1024)
             ["media/logo_1a2b3c4d"] eq_refl eq_refl).
  reflexivity.
Defined.

(** ** The keyword arguments of the upload *)

Section UploadOptions.
Import PyStr OsPath CloudinaryStorage.

Lemma with_format_other (file_ext : string) (content_type : option string)
    (options : gmap string pyval) (k : string) :
  k <> "format" ->
  with_format file_ext content_type options !! k = options !! k.
Proof.
  intros Hk. unfold with_format.
  assert (Hext :
    match format_mapping !! file_ext with
    | Some f => <["format" := VStr f]> options
    | None => options
    end !! k = options !! k).
  { destruct (format_mapping !! file_ext); [|reflexivity].
    now apply lookup_insert_ne. }
  destruct content_type as [ct|]; [|exact Hext].
  destruct (truthy ct && has_char sep ct); [|exact Hext].
  cbv zeta. destruct (in_values _ _); [|exact Hext].
  rewrite lookup_insert_ne by congruence. exact Hext.
Qed.
End UploadOptions.

(** X5.  Whatever the file name and the content, [save] uploads with
    [overwrite], [use_filename] and [unique_filename] all false, as an
    image, under the configured folder and with the generated identifier;
    the only other keyword it may pass is [format]. *)
Theorem upload_options_fixed_entries :
  forall (cfg : settings) (sanitize_filename : string -> string)
         (u : N) (name : string) (c : content),
    let options :=
      CloudinaryStorage._save_upload_options cfg sanitize_filename
        u name c in
    options !! "public_id"
      = Some (VStr (CloudinaryStorage._generate_public_id
                      sanitize_filename u name))
    /\ options !! "folder" = Some (VStr (folder_of cfg))
    /\ options !! "resource_type" = Some (VStr "image")
    /\ options !! "overwrite" = Some (VBool false)
    /\ options !! "use_filename" = Some (VBool false)
    /\ options !! "unique_filename" = Some (VBool false)
    /\ forall k,
         k ∉ ["public_id"; "folder"; "resource_type"; "overwrite";
              "use_filename"; "unique_filename"; "format"] ->
         options !! k = None.
Proof.
  intros cfg san u name c options. subst options.
  unfold CloudinaryStorage._save_upload_options. cbv zeta.
  repeat split;
    try (rewrite with_format_other by discriminate; reflexivity).
  intros k Hk. rewrite !not_elem_of_cons in Hk.
  destruct Hk as (H1 & H2 & H3 & H4 & H5 & H6 & H7 & _).
  rewrite with_format_other by exact H7.
  unfold CloudinaryStorage.upload_options_literal.
  rewrite !lookup_insert_ne by congruence. apply lookup_empty.
Qed.

(** ** Identifier extraction, rule by rule *)

Section ExtractionRules.
Import PyStr OsPath PublicId.

Lemma prefix_take (a s : string) (n : nat) :
  String.prefix a s = true -> String.length a <= n ->
  String.prefix a (take n s) = true.
Proof.
  revert s n. induction a as [|x a IH]; intros s n; [now destruct (take n s)|].
  destruct s as [|y s]; simpl String.prefix; [discriminate|].
  destruct (ascii_dec x y) as [->|]; [|discriminate].
  intros Hp Hn. simpl String.length in Hn.
  destruct n as [|n]; [lia|]. simpl.
  destruct (ascii_dec y y); [|contradiction]. apply IH; [exact Hp | lia].
Qed.

Lemma has_char_take (c : ascii) (n : nat) (s : string) :
  has_char c s = false -> has_char c (take n s) = false.
Proof.
  revert s. induction n as [|n IH]; intros [|a s]; simpl; try reflexivity.
  intros [Ha Hs]%orb_false_iff. now rewrite Ha, IH.
Qed.

Lemma split_absent (c : ascii) (s : string) :
  has_char c s = false -> split c s = [s].
Proof.
  induction s as [|a s IH]; simpl; [reflexivity|].
  intros [Ha Hs]%orb_false_iff. now rewrite Ha, IH.
Qed.

Lemma splitext_root_no_sep (p : string) :
  has_char sep p = false -> has_char sep (fst (splitext p)) = false.
Proof.
  intros H. unfold splitext. destruct (_ && _); simpl fst;
    [now apply has_char_take | exact H].
Qed.

(** Below a folder prefix the root that [splitext] returns still has the
    prefix: the extension starts after the last separator. *)
Lemma splitext_keeps_prefix (folder rest : string) :
  String.prefix (folder +:+ "/")
    (fst (splitext (folder +:+ String sep rest))) = true.
Proof.
  assert (Hp : String.prefix (folder +:+ "/") (folder +:+ String sep rest)
               = true).
  { change (String sep rest) with ("/" +:+ rest).
    rewrite <- append_assoc. apply prefix_app. }
  unfold splitext, rfind.
  destruct (_ && _) eqn:Hc; simpl fst; [|exact Hp].
  apply andb_true_iff in Hc as [Hlt _]. apply Z.ltb_lt in Hlt.
  apply prefix_take; [exact Hp|].
  rewrite length_app. simpl String.length.
  rewrite rfind_from_app in Hlt.
  pose proof (rfind_from_found sep (String sep rest)
                (0 + Z.of_nat (String.length folder))
                (rfind_from sep folder 0 (-1)) eq_refl). lia.
Qed.
End ExtractionRules.

Section SplitextStrips.
Import PyStr OsPath.

Lemma drop_app_le (n : nat) (a b : string) :
  n <= String.length a -> drop n (a +:+ b) = drop n a +:+ b.
Proof.
  revert a. induction n as [|n IH]; intros a Hn; [reflexivity|].
  destruct a as [|x a]; simpl String.length in Hn; [lia|].
  rewrite append_cons. simpl. apply IH. lia.
Qed.

Lemma length_drop (n : nat) (s : string) :
  String.length (drop n s) = String.length s - n.
Proof.
  revert s. induction n as [|n IH]; intros [|a s]; simpl; try lia.
  apply IH.
Qed.

(** [splitext] splits off [.rest] when [rest] holds neither a dot nor a
    separator and the last path segment before the dot has a character
    that is not a dot. *)
Lemma splitext_strips (stem rest : string) :
  has_char extsep rest = false -> has_char sep rest = false ->
  has_non_dot (drop (Z.to_nat (rfind sep stem + 1)) stem) = true ->
  splitext (stem +:+ String extsep rest) = (stem, String extsep rest).
Proof.
  intros Hdr Hsr Hseg. unfold splitext. unfold rfind in *.
  assert (Hsep : rfind_from sep (stem +:+ String extsep rest) 0 (-1)
                 = rfind_from sep stem 0 (-1)).
  { rewrite rfind_from_app. apply rfind_from_absent. exact Hsr. }
  assert (Hdot : rfind_from extsep (stem +:+ String extsep rest) 0 (-1)
                 = Z.of_nat (String.length stem)).
  { rewrite rfind_from_app. simpl rfind_from.
    now rewrite rfind_from_absent. }
  rewrite Hsep, Hdot, Nat2Z.id.
  assert (Hlt : (rfind_from sep stem 0 (-1) < Z.of_nat (String.length stem))%Z)
    by (destruct (rfind_from_range sep stem 0 (-1)) as [-> | H]; lia).
  pose proof (rfind_from_lower sep stem 0 (-1)) as Hlow.
  destruct (Z.ltb_spec (rfind_from sep stem 0 (-1))
                       (Z.of_nat (String.length stem))); [|lia].
  unfold slice.
  rewrite drop_app_le by lia.
  assert (Hlen : String.length stem - Z.to_nat (rfind_from sep stem 0 (-1) + 1)
                 = String.length
                     (drop (Z.to_nat (rfind_from sep stem 0 (-1) + 1)) stem))
    by (now rewrite length_drop).
  rewrite Hlen, take_app_exact, Hseg. simpl andb. cbv iota.
  now rewrite take_app_exact, drop_app_exact.
Qed.
End SplitextStrips.

(** X6.  A reference that starts with the folder prefix loses what
    [splitext] splits off it, and nothing else: the identifier is the
    root [splitext] returns, the reference is that root followed by the
    extension [splitext] returns, and the root still starts with the
    folder prefix.  The extension is empty or a dot followed by
    characters that are neither dots nor separators, and the reference
    comes back unchanged exactly when it is empty.  An extension is
    stripped whenever there is one: a reference [stem.rest], where [rest]
    holds neither a dot nor a separator and the last path segment of
    [stem] has a character other than a dot, extracts to [stem]. *)
Theorem folder_prefixed_extraction :
  forall (cfg : settings) (name : string),
    PyStr.startswith name (folder_of cfg +:+ "/") = true ->
    let public_id := fst (OsPath.splitext name) in
    let ext := snd (OsPath.splitext name) in
    PublicId._extract_public_id cfg name = Some public_id
    /\ name = public_id +:+ ext
    /\ PyStr.startswith public_id (folder_of cfg +:+ "/") = true
    /\ (ext = ""
        \/ exists rest,
             ext = String OsPath.extsep rest
             /\ PyStr.has_char OsPath.extsep rest = false
             /\ PyStr.has_char OsPath.sep rest = false)
    /\ (PublicId._extract_public_id cfg name = Some name <-> ext = "")
    /\ (forall stem rest,
          name = stem +:+ String OsPath.extsep rest ->
          PyStr.has_char OsPath.extsep rest = false ->
          PyStr.has_char OsPath.sep rest = false ->
          OsPath.has_non_dot
            (PyStr.drop (Z.to_nat (PyStr.rfind OsPath.sep stem + 1)) stem)
            = true ->
          PublicId._extract_public_id cfg name = Some stem
          /\ ext = String OsPath.extsep rest).
Proof.
  intros cfg name Hpre public_id ext. subst public_id ext.
  assert (Hname : name = folder_of cfg
                           +:+ String OsPath.sep
                                 (PyStr.drop
                                    (String.length (folder_of cfg +:+ "/"))
                                    name)).
  { apply prefix_split in Hpre. rewrite append_assoc in Hpre.
    exact Hpre. }
  assert (Hex : PublicId._extract_public_id cfg name
                = Some (fst (OsPath.splitext name))).
  { unfold PublicId._extract_public_id. cbv zeta. rewrite Hpre.
    rewrite Hname at 1. now destruct (folder_of cfg). }
  split; [exact Hex|].
  split; [symmetry; apply splitext_append|].
  split; [rewrite Hname; apply splitext_keeps_prefix|].
  split; [apply splitext_ext_shape|].
  split.
  - rewrite Hex. split.
    + intros [= Hroot]. pose proof (splitext_append name) as Happ.
      rewrite Hroot in Happ. rewrite <- (append_nil_r name) in Happ at 3.
      now apply append_inv_head in Happ.
    + intros Hext. pose proof (splitext_append name) as Happ.
      rewrite Hext, append_nil_r in Happ. now rewrite Happ.
  - intros stem rest Hshape Hdot Hsep Hseg.
    rewrite Hex, Hshape, (splitext_strips stem rest Hdot Hsep Hseg).
    now split.
Qed.

Lemma folder_prefixed_extraction_witness :
  PublicId._extract_public_id TestDouble.default_settings
    "media/archive.tar.gz" = Some "media/archive.tar"
  /\ snd (OsPath.splitext "media/archive.tar.gz") = ".gz".
Proof.
  destruct (folder_prefixed_extraction TestDouble.default_settings
              "media/archive.tar.gz" eq_refl)
    as (_ & _ & _ & _ & _ & Hstrip).
  apply (Hstrip "media/archive.tar" "gz"); reflexivity.
Defined.

(** X7.  A non-empty reference without a path separator is a bare file
    name: its extension is stripped and the folder is put in front,
    unless what is left already begins with the folder's name, in which
    case it is returned as it is, without the folder prefix.  This holds
    also when the name contains [cloudinary.com]. *)
Theorem bare_name_extraction :
  forall (cfg : settings) (name : string),
    name <> "" ->
    PyStr.has_char OsPath.sep name = false ->
    PublicId._extract_public_id cfg name =
      Some (let root := fst (OsPath.splitext name) in
            if PyStr.startswith root (folder_of cfg) then root
            else folder_of cfg +:+ "/" +:+ root).
Proof.
  intros cfg name Hne Hsep.
  unfold PublicId._extract_public_id. cbv zeta.
  apply truthy_true in Hne. rewrite Hne. simpl negb. cbv iota.
  assert (Hpre : PyStr.startswith name (folder_of cfg +:+ "/") = false).
  { destruct (PyStr.startswith name _) eqn:Hp; [|reflexivity].
    apply prefix_split in Hp. rewrite Hp, !has_char_app in Hsep.
    simpl in Hsep. rewrite orb_true_r in Hsep. discriminate. }
  rewrite Hpre, (split_absent OsPath.sep name Hsep).
  rewrite (splitext_root_no_sep name Hsep).
  simpl andb. unfold PyStr.startswith.
  destruct (PyStr.contains _ name); simpl;
    now destruct (String.prefix _ _).
Qed.

(** With the folder left at ["media"]: [logo.png] gets the prefix,
    [media_kit.png] does not. *)
Lemma bare_name_extraction_witness :
  PublicId._extract_public_id TestDouble.default_settings "logo.png"
    = Some "media/logo"
  /\ PublicId._extract_public_id TestDouble.default_settings "media_kit.png"
       = Some "media_kit".
Proof.
  split.
  - rewrite (bare_name_extraction TestDouble.default_settings "logo.png");
      [reflexivity | discriminate | reflexivity].
  - rewrite (bare_name_extraction TestDouble.default_settings
               "media_kit.png");
      [reflexivity | discriminate | reflexivity].
Defined.

(** ** What [save] returns is what the other operations look up *)

Section SavedReference.
Import PyStr OsPath CloudinaryStorage.
Variable cfg : settings.
Variable sanitize_filename : string -> string.

Lemma unique_id_no_dot (u : N) :
  has_char extsep (take 8 (Uuid.str u)) = false.
Proof.
  apply (all_chars_excludes Uuid.is_lower_hex); [reflexivity|].
  apply unique_id_shape.
Qed.

Lemma generated_id_no_dot (u : N) (name : string) :
  has_char extsep (fst (splitext (sanitize_filename name))) = false ->
  has_char extsep (_generate_public_id sanitize_filename u name) = false.
Proof.
  intros Hstem. unfold _generate_public_id. cbv zeta.
  now rewrite !has_char_app, Hstem, unique_id_no_dot.
Qed.

Lemma generated_id_length (u : N) (name : string) :
  String.length (_generate_public_id sanitize_filename u name)
    = String.length (fst (splitext (sanitize_filename name))) + 9.
Proof.
  unfold _generate_public_id. cbv zeta.
  rewrite !length_app. destruct (unique_id_shape u) as [-> _].
  simpl String.length. lia.
Qed.
End SavedReference.

(** X8.  When the sanitized stem of a file name holds no dot, the
    reference [save] returns for it extracts to itself; so [exists] (like
    [delete] and [size]) asks the service about exactly that reference
    and [url] builds the URL of exactly that reference. *)
Theorem saved_reference_extracts_to_itself :
  forall (cfg : settings) (sanitize_filename : string -> string)
         (u : N) (name : string),
    PyStr.has_char OsPath.extsep
      (fst (OsPath.splitext (sanitize_filename name))) = false ->
    let ref := folder_of cfg +:+ "/"
                 +:+ CloudinaryStorage._generate_public_id
                       sanitize_filename u name in
    PublicId._extract_public_id cfg ref = Some ref
    /\ forall (W : Type) (api : Cloudinary W) (s : state W),
         Eff.remote_calls
           (trace (snd (CloudinaryStorage.exists_ api cfg ref s)))
         = Eff.remote_calls (trace s)
             ++ [Resource ref CloudinaryStorage.resource_kwargs]
         /\ Eff.builder_calls
              (trace (snd (CloudinaryStorage.url api cfg ref s)))
            = Eff.builder_calls (trace s)
                ++ [(ref, CloudinaryStorage.url_options)].
Proof.
  intros cfg san u name Hstem ref.
  assert (Hex : PublicId._extract_public_id cfg ref = Some ref).
  { unfold PublicId._extract_public_id. cbv zeta.
    assert (Ht : PyStr.truthy ref = true) by apply truthy_append_sep.
    rewrite Ht. simpl negb. cbv iota.
    assert (Hp : PyStr.startswith ref (folder_of cfg +:+ "/") = true).
    { unfold ref, PyStr.startswith. rewrite <- append_assoc.
      apply prefix_app. }
    rewrite Hp. unfold ref.
    change ("/" +:+ CloudinaryStorage._generate_public_id san u name)
      with (String OsPath.sep
              (CloudinaryStorage._generate_public_id san u name)).
    now rewrite splitext_dotless_tail
      by (apply generated_id_no_dot, Hstem). }
  split; [exact Hex|]. intros W api s.
  assert (Hne : ref <> "").
  { intros H. pose proof (truthy_append_sep (folder_of cfg)
      (CloudinaryStorage._generate_public_id san u name)) as Ht.
    fold ref in Ht. rewrite H in Ht. discriminate. }
  split.
  - rewrite (exists_run api cfg ref ref s Hne Hex
               (truthy_append_sep _ _)).
    cbv zeta. unfold Eff.remote_calls.
    destruct (api_resource _ _ _ _) as [[r|[m|m]] w]; simpl snd;
      unfold Eff.after; simpl trace; now rewrite List.filter_app.
  - destruct (url_with_builder_call api cfg CloudinaryStorage.url_options
                "URL" ref s Hne) as (pid & Hex' & Hb).
    assert (pid = ref) as -> by congruence. exact Hb.
Qed.

Lemma saved_reference_extracts_to_itself_witness :
  PublicId._extract_public_id TestDouble.default_settings
    "media/my-logo_1a2b3c4d" = Some "media/my-logo_1a2b3c4d".
Proof.
  exact (proj1 (saved_reference_extracts_to_itself
                  TestDouble.default_settings Providers.sanitize_filename
                  0x1a2b3c4d5e6f408192a3b4c5d6e7f809 "My Logo.PNG"
                  eq_refl)).
Defined.

(** X9.  [get_available_name] pays no attention to [max_length]: for
    every limit it returns the generated identifier, which is nine
    characters longer than the sanitized stem of the name; a limit below
    nine is therefore always exceeded. *)
Theorem get_available_name_ignores_max_length :
  forall (sanitize_filename : string -> string) (u : N) (name : string)
         (max_length : option nat),
    CloudinaryStorage.get_available_name sanitize_filename u name max_length
      = CloudinaryStorage.get_available_name sanitize_filename u name None
    /\ String.length
         (CloudinaryStorage.get_available_name sanitize_filename u name
            max_length)
       = String.length (fst (OsPath.splitext (sanitize_filename name))) + 9
    /\ forall m,
         max_length = Some m -> m < 9 ->
         m < String.length
               (CloudinaryStorage.get_available_name sanitize_filename
                  u name max_length).
Proof.
  intros san u name max_length.
  unfold CloudinaryStorage.get_available_name.
  rewrite generated_id_length. repeat split. intros m _ Hm. lia.
Qed.

Lemma get_available_name_ignores_max_length_witness :
  5 < String.length
        (CloudinaryStorage.get_available_name Providers.sanitize_filename
           0x1a2b3c4d5e6f408192a3b4c5d6e7f809 "My Logo.PNG" (Some 5)).
Proof.
  destruct (get_available_name_ignores_max_length
              Providers.sanitize_filename
              0x1a2b3c4d5e6f408192a3b4c5d6e7f809 "My Logo.PNG" (Some 5))
    as (_ & _ & H).
  apply (H 5); [reflexivity | lia].
Defined.

(** X10.  A name that came out of [get_available_name] has no extension
    left when its sanitized stem held no dot.  Saving under such a name,
    the extension contributes no [format]: content that declares no
    media type is uploaded without one. *)
Theorem generated_name_has_no_extension :
  forall (cfg : settings) (sanitize_filename : string -> string)
         (u u' : N) (name : string) (max_length : option nat) (c : content),
    PyStr.has_char OsPath.extsep
      (fst (OsPath.splitext (sanitize_filename name))) = false ->
    let generated :=
      CloudinaryStorage.get_available_name sanitize_filename u name
        max_length in
    OsPath.splitext generated = (generated, "")
    /\ (is_uploaded_file c = false \/ content_type_attr c = None ->
        CloudinaryStorage._save_upload_options cfg sanitize_filename
          u' generated c !! "format" = None).
Proof.
  intros cfg san u u' name max_length c Hstem generated.
  assert (Hsplit : OsPath.splitext generated = (generated, "")).
  { apply splitext_dotless. unfold generated.
    apply generated_id_no_dot, Hstem. }
  split; [exact Hsplit|]. intros Hnone.
  unfold CloudinaryStorage._save_upload_options. cbv zeta.
  rewrite with_format_lookup, Hsplit. simpl snd.
  destruct Hnone as [-> | Hattr]; [reflexivity|].
  rewrite Hattr. now destruct (is_uploaded_file c).
Qed.

Lemma generated_name_has_no_extension_witness :
  CloudinaryStorage._save_upload_options TestDouble.default_settings
    Providers.sanitize_filename 7
    (CloudinaryStorage.get_available_name Providers.sanitize_filename
       0x1a2b3c4d5e6f408192a3b4c5d6e7f809 "My Logo.PNG" (Some 100))
    {| has_seek := true; is_uploaded_file := false;
       content_type_attr := None; data := "89504e47"; position := 0 |}
    !! "format" = None.
Proof.
  destruct (generated_name_has_no_extension TestDouble.default_settings
              Providers.sanitize_filename
              0x1a2b3c4d5e6f408192a3b4c5d6e7f809 7 "My Logo.PNG" (Some 100)
              {| has_seek := true; is_uploaded_file := false;
                 content_type_attr := None; data := "89504e47";
                 position := 0 |} eq_refl) as [_ H].
  apply H. now left.
Defined.

(** ** How much of the UUID reaches the identifier *)

Section UniqueSuffix.
Import PyStr Uuid.

Lemma take_app_le (n : nat) (a b : string) :
  n <= String.length a -> take n (a +:+ b) = take n a.
Proof.
  revert a. induction n as [|n IH]; intros a Hn; [reflexivity|].
  destruct a as [|x a]; simpl String.length in Hn; [lia|].
  rewrite append_cons. simpl. rewrite IH; [reflexivity | lia].
Qed.

Lemma take_all (s : string) : take (String.length s) s = s.
Proof. induction s as [|a s IH]; simpl; [reflexivity | now rewrite IH]. Qed.

(** The leading [k] digits of a wider rendering are the rendering of the
    number with its low digits cut off. *)
Lemma hex_fixed_take (k j : nat) (n : N) :
  take k (hex_fixed (k + j) n) = hex_fixed k (n / 16 ^ N.of_nat j)%N.
Proof.
  revert n. induction j as [|j IH]; intros n.
  - rewrite Nat.add_0_r. simpl N.of_nat. rewrite N.pow_0_r, N.div_1_r.
    rewrite <- (hex_fixed_length k n) at 1. apply take_all.
  - rewrite Nat.add_succ_r. simpl hex_fixed.
    rewrite take_app_le by (rewrite hex_fixed_length; lia).
    rewrite IH, N.Div0.div_div.
    now rewrite Nat2N.inj_succ, N.pow_succ_r'.
Qed.

Lemma unique_id_top_bits (u : N) :
  take 8 (Uuid.str u) = hex_fixed 8 (u / 2 ^ 96)%N.
Proof.
  rewrite str_prefix. change 32 with (8 + 24).
  rewrite hex_fixed_take. reflexivity.
Qed.

Lemma below_16 (a : N) :
  (a < 16)%N ->
  (a = 0 \/ a = 1 \/ a = 2 \/ a = 3 \/ a = 4 \/ a = 5 \/ a = 6 \/ a = 7
   \/ a = 8 \/ a = 9 \/ a = 10 \/ a = 11 \/ a = 12 \/ a = 13 \/ a = 14
   \/ a = 15)%N.
Proof. lia. Qed.

Lemma hex_digit_inj (a b : N) :
  (a < 16)%N -> (b < 16)%N -> hex_digit a = hex_digit b -> a = b.
Proof.
  intros Ha%below_16 Hb%below_16.
  repeat (destruct Ha as [->|Ha]); try subst a;
    (repeat (destruct Hb as [->|Hb]); try subst b;
     intros H; first [reflexivity | discriminate H]).
Qed.

Lemma append_last_inj (a b : string) (x y : ascii) :
  String.length a = String.length b ->
  a +:+ String x EmptyString = b +:+ String y EmptyString ->
  a = b /\ x = y.
Proof.
  revert b. induction a as [|c a IH]; intros [|d b]; simpl String.length;
    try discriminate.
  - intros _ [= ->]. now split.
  - intros [= Hlen]. rewrite !append_cons. intros [= -> H].
    destruct (IH b Hlen H) as [-> ->]. now split.
Qed.

Lemma hex_fixed_inj (width : nat) (n m : N) :
  (n < 16 ^ N.of_nat width)%N -> (m < 16 ^ N.of_nat width)%N ->
  hex_fixed width n = hex_fixed width m -> n = m.
Proof.
  revert n m. induction width as [|w IH]; intros n m Hn Hm.
  - simpl in Hn, Hm. lia.
  - rewrite Nat2N.inj_succ, N.pow_succ_r' in Hn, Hm. simpl hex_fixed.
    intros H. apply append_last_inj in H as [Hhi Hlo];
      [|now rewrite !hex_fixed_length].
    apply IH in Hhi;
      [|apply N.Div0.div_lt_upper_bound; lia
       |apply N.Div0.div_lt_upper_bound; lia].
    apply hex_digit_inj in Hlo; try (apply N.mod_lt; discriminate).
    rewrite (N.div_mod n 16), (N.div_mod m 16) by discriminate. lia.
Qed.
End UniqueSuffix.

(** X11.  Of the 128 bits of the UUID only the first 32 reach the
    identifier: two uploads of the same file name get the same identifier
    exactly when their UUIDs agree on those 32 bits. *)
Theorem unique_id_from_first_32_bits :
  forall (sanitize_filename : string -> string) (name : string) (u1 u2 : N),
    (u1 < 2 ^ 128)%N -> (u2 < 2 ^ 128)%N ->
    (CloudinaryStorage._generate_public_id sanitize_filename u1 name
       = CloudinaryStorage._generate_public_id sanitize_filename u2 name
     <-> (u1 / 2 ^ 96 = u2 / 2 ^ 96)%N).
Proof.
  intros san name u1 u2 H1 H2.
  unfold CloudinaryStorage._generate_public_id. cbv zeta.
  rewrite !unique_id_top_bits. split.
  - intros H. apply append_inv_head, append_inv_head in H.
    apply (hex_fixed_inj 8); [| |exact H];
      apply N.Div0.div_lt_upper_bound;
      change (2 ^ 96 * 16 ^ N.of_nat 8)%N with (2 ^ 128)%N; assumption.
  - now intros ->.
Qed.

Lemma unique_id_from_first_32_bits_witness :
  CloudinaryStorage._generate_public_id Providers.sanitize_filename
    0x1a2b3c4d5e6f408192a3b4c5d6e7f809 "My Logo.PNG"
    = CloudinaryStorage._generate_public_id Providers.sanitize_filename
        0x1a2b3c4d000000000000000000000000 "My Logo.PNG".
Proof.
  apply (unique_id_from_first_32_bits Providers.sanitize_filename
           "My Logo.PNG" 0x1a2b3c4d5e6f408192a3b4c5d6e7f809
           0x1a2b3c4d000000000000000000000000);
    [reflexivity | reflexivity | reflexivity].
Defined.

(** * The logo check of [fix_cloudinary_images.py] *)

Section Substrings.
Import PyStr.

Lemma lower_app (a b : string) : lower (a +:+ b) = lower a +:+ lower b.
Proof.
  induction a as [|x a IH]; [reflexivity|].
  rewrite append_cons. simpl. now rewrite IH.
Qed.

Lemma contains_nil (sub : string) :
  contains sub EmptyString = String.prefix sub EmptyString || false.
Proof. reflexivity. Qed.

Lemma contains_cons (sub : string) (x : ascii) (s : string) :
  contains sub (String x s)
    = String.prefix sub (String x s) || contains sub s.
Proof. reflexivity. Qed.

(** [sub in s] holds exactly when [s] is some text, [sub], and some more
    text. *)
Lemma contains_spec (sub s : string) :
  contains sub s = true <-> exists a b, s = a +:+ sub +:+ b.
Proof.
  split.
  - induction s as [|x s IH].
    + rewrite contains_nil, orb_false_r. intros H%prefix_split.
      exists EmptyString, (drop (String.length sub) ""). exact H.
    + rewrite contains_cons.
      intros [H%prefix_split | H]%orb_true_iff.
      * exists EmptyString, (drop (String.length sub) (String x s)).
        exact H.
      * destruct (IH H) as (a & b & ->). now exists (String x a), b.
  - intros (a & b & ->). induction a as [|x a IH].
    + change (EmptyString +:+ sub +:+ b) with (sub +:+ b).
      destruct (sub +:+ b) eqn:E.
      * rewrite contains_nil, <- E, prefix_app. reflexivity.
      * rewrite contains_cons, <- E, prefix_app. reflexivity.
    + rewrite append_cons, contains_cons, IH. apply orb_true_r.
Qed.

Lemma contains_trans (a b c : string) :
  contains a b = true -> contains b c = true -> contains a c = true.
Proof.
  intros (x & y & ->)%contains_spec (z & w & ->)%contains_spec.
  apply contains_spec. exists (z +:+ x), (y +:+ w).
  now rewrite !append_assoc.
Qed.

Lemma contains_lower (a b : string) :
  contains a b = true -> contains (lower a) (lower b) = true.
Proof.
  intros (x & y & ->)%contains_spec. apply contains_spec.
  exists (lower x), (lower y). now rewrite !lower_app.
Qed.

Lemma contains_empty (s : string) : contains EmptyString s = true.
Proof. now destruct s. Qed.

(** The first field of a split is where the string starts. *)
Lemma split_head (c : ascii) (s : string) :
  exists first rest more,
    split c s = first :: rest /\ s = first +:+ more.
Proof.
  induction s as [|a s (first & rest & more & Hs & ->)]; simpl split.
  - now exists EmptyString, [], EmptyString.
  - destruct (Ascii.eqb a c).
    + now exists EmptyString, (split c (first +:+ more)),
                 (String a (first +:+ more)).
    + rewrite Hs. now exists (String a first), rest, more.
Qed.
End Substrings.

Section LogoCheck.
Import PyStr FixImages.
Variable lower : StrLower.

Lemma is_ascii_app (a b : string) :
  is_ascii (a +:+ b) = is_ascii a && is_ascii b.
Proof. apply all_chars_app. Qed.

(** A piece of ASCII text is ASCII text. *)
Lemma is_ascii_contained (sub s : string) :
  contains sub s = true -> is_ascii s = true -> is_ascii sub = true.
Proof.
  intros (a & b & ->)%contains_spec.
  rewrite !is_ascii_app. intros [_ [H _]%andb_true_iff]%andb_true_iff.
  exact H.
Qed.

Lemma lower_empty : lower EmptyString = EmptyString.
Proof. now rewrite str_lower_ascii. Qed.

(** The search term is cut out of the logo's name. *)
Lemma search_term_in_name (public_id : string) :
  contains (search_term public_id) public_id = true.
Proof.
  apply contains_spec. unfold search_term, basename.
  destruct (split_head "_"%char
              (drop (Z.to_nat (rfind OsPath.sep public_id + 1)) public_id))
    as (first & rest & more & -> & Hb).
  exists (take (Z.to_nat (rfind OsPath.sep public_id + 1)) public_id), more.
  rewrite <- Hb. symmetry. apply take_drop.
Qed.

Lemma search_loop_keeps (term : string) (keys : list string)
    (found : bool) (out : list string) (line : string) :
  In line out -> In line (snd (search_loop lower term keys found out)).
Proof.
  revert found out. induction keys as [|k keys IH]; intros found out Hin;
    simpl; [exact Hin|].
  destruct (contains _ _); apply IH; [|exact Hin].
  apply in_or_app. now left.
Qed.

Lemma search_loop_stays_found (term : string) (keys : list string)
    (out : list string) :
  fst (search_loop lower term keys true out) = true.
Proof.
  revert out. induction keys as [|k keys IH]; intros out; simpl;
    [reflexivity|].
  destruct (contains _ _); apply IH.
Qed.

Lemma search_loop_reports (term : string) (keys : list string)
    (found : bool) (out : list string) (key : string) :
  In key keys ->
  contains (lower term) (lower key) = true ->
  fst (search_loop lower term keys found out) = true
  /\ In ("   [FOUND] Similar image: " +:+ key)
        (snd (search_loop lower term keys found out)).
Proof.
  revert found out. induction keys as [|k keys IH]; intros found out;
    [intros []|].
  intros [-> | Hin] Hc; simpl.
  - rewrite Hc. split; [apply search_loop_stays_found|].
    apply search_loop_keeps, in_or_app. right. now left.
  - destruct (contains _ (lower k)); now apply IH.
Qed.

(** Every line the loop leaves behind was there before or reports an
    identifier. *)
Lemma search_loop_lines (term : string) (keys : list string)
    (found : bool) (out : list string) (line : string) :
  In line (snd (search_loop lower term keys found out)) ->
  In line out
  \/ exists key, In key keys
                 /\ contains (lower term) (lower key) = true
                 /\ line = "   [FOUND] Similar image: " +:+ key.
Proof.
  revert found out. induction keys as [|k keys IH]; intros found out;
    simpl; [now left|].
  destruct (contains _ (lower k)) eqn:Hk; intros H; apply IH in H.
  - destruct H as [[H | [<- | []]]%in_app_or | (key & Hin & Hc & ->)].
    + now left.
    + right. exists k. auto.
    + right. exists key. auto.
  - destruct H as [H | (key & Hin & Hc & ->)]; [now left|].
    right. exists key. auto.
Qed.

Lemma search_loop_split (term : string) (keys : list string)
    (found : bool) (out : list string) :
  search_loop lower term keys found out
    = (fst (search_loop lower term keys found out),
       snd (search_loop lower term keys found out)).
Proof. now destruct (search_loop lower term keys found out). Qed.
End LogoCheck.

(** X12.  When the logo's name is not among the Cloudinary identifiers,
    every identifier that contains the name, letter case aside, is
    reported as a similar image, and the "no similar images" error is not
    printed.  This is for a name and an identifier in ASCII, where
    [str.lower] folds the letters A-Z and nothing else. *)
Theorem check_logo_finds_containing_ids :
  forall (lower : FixImages.StrLower)
         (business_name logo_name logo_url : string) (keys : list string)
         (key : string),
    FixImages.is_ascii logo_name = true ->
    FixImages.is_ascii key = true ->
    ~ In logo_name keys ->
    In key keys ->
    PyStr.contains (FixImages.str_lower lower logo_name)
      (FixImages.str_lower lower key) = true ->
    let out :=
      FixImages.check_logo lower business_name logo_name logo_url keys in
    In ("   [FOUND] Similar image: " +:+ key) out
    /\ ~ In "   [ERROR] No similar images found" out.
Proof.
  intros lower business_name logo_name logo_url keys key Hlogo Hkey
         Hnot Hin Hc out.
  subst out. unfold FixImages.check_logo. cbv zeta.
  rewrite bool_decide_eq_false_2 by (now rewrite list_elem_of_In).
  rewrite search_loop_split.
  assert (Hterm : PyStr.contains
                    (FixImages.str_lower lower
                       (FixImages.search_term logo_name))
                    (FixImages.str_lower lower key) = true).
  { pose proof (search_term_in_name logo_name) as Hsub.
    rewrite (FixImages.str_lower_ascii lower logo_name Hlogo) in Hc.
    rewrite (FixImages.str_lower_ascii lower _
               (is_ascii_contained _ _ Hsub Hlogo)).
    rewrite (FixImages.str_lower_ascii lower key Hkey) in *.
    eapply contains_trans; [|exact Hc].
    now apply contains_lower. }
  destruct (search_loop_reports lower (FixImages.search_term logo_name)
              keys false
              ([String "010" "   Provider: " +:+ business_name;
                "   Logo field value: " +:+ logo_name]
               ++ ["   [WARNING] Image NOT found in Cloudinary";
                   "   Searching for similar images..."]) key Hin Hterm)
    as [Hfound Hline].
  rewrite Hfound. simpl negb. cbv iota. split; [exact Hline|].
  intros Herr. apply search_loop_lines in Herr.
  destruct Herr as [[H | [H | [H | [H | []]]]] | (k & _ & _ & H)];
    discriminate H.
Qed.

Lemma check_logo_finds_containing_ids_witness :
  In "   [FOUND] Similar image: booking_app/My-Logo_1a2b3c4d.png"
     (FixImages.check_logo FixImages.ascii_lower "Ramesh Salon"
        "booking_app/my-logo_1a2b3c4d"
        "https://res.cloudinary.com/demo/image/upload/booking_app/my-logo_1a2b3c4d"
        ["booking_app/other_5e6f7a8b"; "booking_app/My-Logo_1a2b3c4d.png"]).
Proof.
  apply (check_logo_finds_containing_ids FixImages.ascii_lower
           "Ramesh Salon" "booking_app/my-logo_1a2b3c4d"
           "https://res.cloudinary.com/demo/image/upload/booking_app/my-logo_1a2b3c4d"
           ["booking_app/other_5e6f7a8b"; "booking_app/My-Logo_1a2b3c4d.png"]
           "booking_app/My-Logo_1a2b3c4d.png").
  - reflexivity.
  - reflexivity.
  - intros [H | [H | []]]; discriminate H.
  - right. now left.
  - reflexivity.
Defined.

(** X13.  When the base name of the logo's name is empty or begins with
    an underscore, the search term is empty, and then every Cloudinary
    identifier is reported as a similar image, whatever it is and
    whatever [str.lower] makes of it. *)
Theorem check_logo_empty_term_matches_all :
  forall (lower : FixImages.StrLower)
         (business_name logo_name logo_url : string) (keys : list string)
         (key : string),
    ~ In logo_name keys ->
    In key keys ->
    (FixImages.basename logo_name = ""
     \/ exists rest, FixImages.basename logo_name = String "_" rest) ->
    FixImages.search_term logo_name = ""
    /\ In ("   [FOUND] Similar image: " +:+ key)
          (FixImages.check_logo lower business_name logo_name logo_url
             keys).
Proof.
  intros lower business_name logo_name logo_url keys key Hnot Hin Hbase.
  assert (Hterm : FixImages.search_term logo_name = "").
  { unfold FixImages.search_term.
    destruct Hbase as [-> | [rest ->]]; reflexivity. }
  split; [exact Hterm|].
  unfold FixImages.check_logo. cbv zeta.
  rewrite bool_decide_eq_false_2 by (now rewrite list_elem_of_In).
  rewrite search_loop_split, Hterm.
  assert (Hmatch : PyStr.contains (FixImages.str_lower lower "")
                     (FixImages.str_lower lower key) = true)
    by (rewrite lower_empty; apply contains_empty).
  destruct (search_loop_reports lower "" keys false
              ([String "010" "   Provider: " +:+ business_name;
                "   Logo field value: " +:+ logo_name]
               ++ ["   [WARNING] Image NOT found in Cloudinary";
                   "   Searching for similar images..."]) key Hin Hmatch)
    as [Hfound Hline].
  now rewrite Hfound.
Qed.

Lemma check_logo_empty_term_matches_all_witness :
  In "   [FOUND] Similar image: booking_app/other_5e6f7a8b"
     (FixImages.check_logo FixImages.ascii_lower "Ramesh Salon"
        "booking_app/_1a2b3c4d" "" ["booking_app/other_5e6f7a8b"]).
Proof.
  apply (check_logo_empty_term_matches_all FixImages.ascii_lower
           "Ramesh Salon" "booking_app/_1a2b3c4d" ""
           ["booking_app/other_5e6f7a8b"] "booking_app/other_5e6f7a8b").
  - intros [H | []]; discriminate H.
  - now left.
  - right. now exists "1a2b3c4d".
Defined.

(** * The update of the DNS targets in [update_cname_config.py] *)

Section CnameFacts.
Import CnameConfig.
Variable gen_cname gen_txt : provider -> string.
Variable base : option string.

Lemma table_print (text : string) (st : script_state) :
  table (print text st) = table st.
Proof. reflexivity. Qed.

Lemma table_prints (texts : list string) (st : script_state) :
  table (prints texts st) = table st.
Proof.
  revert st. induction texts as [|t texts IH]; intros st; [reflexivity|].
  unfold prints in *. simpl fold_left. now rewrite IH.
Qed.

Lemma saves_app (l1 l2 : list action) :
  saves (l1 ++ l2) = saves l1 ++ saves l2.
Proof.
  induction l1 as [|[t|k f] l1 IH]; simpl; [reflexivity | exact IH |].
  now rewrite IH.
Qed.

Lemma saves_print (text : string) (st : script_state) :
  saves (actions (print text st)) = saves (actions st).
Proof. unfold print. simpl actions. now rewrite saves_app, app_nil_r. Qed.

Lemma saves_prints (texts : list string) (st : script_state) :
  saves (actions (prints texts st)) = saves (actions st).
Proof.
  revert st. induction texts as [|t texts IH]; intros st; [reflexivity|].
  unfold prints in *. simpl fold_left. now rewrite IH, saves_print.
Qed.

End CnameFacts.

Section CnameLoop.
Import CnameConfig.
Variable gen_cname gen_txt : provider -> string.
Variable base : option string.

Lemma provider_eta (p : provider) :
  {| pk := pk p; business_name := business_name p;
     custom_domain := custom_domain p;
     custom_domain_type := custom_domain_type p;
     domain_verified := domain_verified p; ssl_enabled := ssl_enabled p;
     cname_target := cname_target p;
     txt_record_name := txt_record_name p |} = p.
Proof. now destruct p. Qed.

(** One pass of the loop body, seen from the table and from the saves. *)
Lemma update_provider_effect (p : provider) (st : script_state) :
  table (update_provider gen_cname gen_txt p st)
    = map (refreshed gen_cname gen_txt p) (table st)
  /\ saves (actions (update_provider gen_cname gen_txt p st))
     = saves (actions st)
         ++ match stale_fields gen_cname gen_txt p with
            | [] => []
            | _ :: _ => [(pk p, stale_fields gen_cname gen_txt p)]
            end.
Proof.
  unfold update_provider, stale_fields, refreshed. cbv zeta.
  set (st0 := prints _ st).
  assert (Ht0 : table st0 = table st) by apply table_prints.
  assert (Hs0 : saves (actions st0) = saves (actions st))
    by apply saves_prints.
  clearbody st0.
  destruct (bool_decide (cname_target p = Some (gen_cname p))) eqn:Hc;
    simpl negb; cbv iota beta;
    (destruct (bool_decide (txt_record_name _ = Some (gen_txt p))) eqn:Ht;
     simpl negb; cbv iota beta);
    rewrite table_prints, saves_prints, ?table_print, ?saves_print;
    simpl app; unfold save; simpl table; simpl actions;
    rewrite ?saves_app, Ht0, Hs0; simpl saves.
  - split; [|now rewrite app_nil_r].
    symmetry. erewrite map_ext; [apply map_id|].
    intros row. now destruct (Nat.eqb _ _).
  - split; [reflexivity | now rewrite app_nil_r].
  - split; [reflexivity | now rewrite app_nil_r].
  - split; [reflexivity | now rewrite app_nil_r].
Qed.
End CnameLoop.

Section CnameTable.
Import CnameConfig.
Variable gen_cname gen_txt : provider -> string.
Variable base : option string.

Lemma loop_saves (ps : list provider) (st : script_state) :
  saves (actions (fold_left (fun st p => update_provider gen_cname gen_txt p st)
                   ps st))
    = saves (actions st)
        ++ flat_map (fun p =>
                       match stale_fields gen_cname gen_txt p with
                       | [] => []
                       | _ :: _ => [(pk p, stale_fields gen_cname gen_txt p)]
                       end) ps.
Proof.
  revert st. induction ps as [|p ps IH]; intros st; simpl fold_left.
  - simpl. now rewrite app_nil_r.
  - rewrite IH.
    rewrite (proj2 (update_provider_effect gen_cname gen_txt p st)).
    simpl flat_map. now rewrite <- app_assoc.
Qed.

Lemma loop_table (ps : list provider) (st : script_state) :
  table (fold_left (fun st p => update_provider gen_cname gen_txt p st)
                   ps st)
    = fold_left (fun rows p => map (refreshed gen_cname gen_txt p) rows)
                ps (table st).
Proof.
  revert st. induction ps as [|p ps IH]; intros st; simpl fold_left;
    [reflexivity|].
  rewrite IH.
  now rewrite (proj1 (update_provider_effect gen_cname gen_txt p st)).
Qed.

Lemma set_cname_target_same (p : provider) :
  set_cname_target p (cname_target p) = p.
Proof. now destruct p. Qed.

Lemma set_txt_record_name_same (p : provider) :
  set_txt_record_name p (txt_record_name p) = p.
Proof. now destruct p. Qed.

Lemma refreshed_self (p : provider) :
  refreshed gen_cname gen_txt p p = with_targets gen_cname gen_txt p.
Proof.
  unfold refreshed, with_targets. rewrite Nat.eqb_refl. cbv zeta.
  destruct (bool_decide (cname_target p = Some (gen_cname p))) eqn:Hc;
    destruct (bool_decide (txt_record_name p = Some (gen_txt p))) eqn:Ht;
    try apply bool_decide_eq_true in Hc;
    try apply bool_decide_eq_true in Ht.
  - rewrite <- Hc, <- Ht, set_cname_target_same.
    symmetry. apply set_txt_record_name_same.
  - now rewrite <- Hc, set_cname_target_same.
  - rewrite <- Ht.
    exact (eq_sym (set_txt_record_name_same
                     (set_cname_target p (Some (gen_cname p))))).
  - reflexivity.
Qed.

Lemma refreshed_pk (p row : provider) :
  pk (refreshed gen_cname gen_txt p row) = pk row.
Proof.
  unfold refreshed. cbv zeta.
  destruct (Nat.eqb _ _); repeat case_bool_decide; reflexivity.
Qed.

Lemma refreshed_other (p row : provider) :
  pk row <> pk p -> refreshed gen_cname gen_txt p row = row.
Proof.
  intros H. unfold refreshed. now apply Nat.eqb_neq in H as ->.
Qed.

Lemma with_targets_pk (p : provider) :
  pk (with_targets gen_cname gen_txt p) = pk p.
Proof. reflexivity. Qed.

Lemma with_targets_domain (p : provider) :
  has_custom_domain (with_targets gen_cname gen_txt p)
    = has_custom_domain p.
Proof. reflexivity. Qed.

(** After the passes for [ps], the rows whose key is that of a provider
    in [ps] carry the generated targets and the others are as before:
    keys are unique and each row is the provider the pass was made for. *)
Lemma passes_refresh (ps rows : list provider) :
  NoDup (map pk ps) ->
  (forall p r, In p ps -> In r rows -> pk r = pk p -> r = p) ->
  fold_left (fun rows p => map (refreshed gen_cname gen_txt p) rows) ps rows
    = map (fun r => if bool_decide (pk r ∈ map pk ps)
                    then with_targets gen_cname gen_txt r else r) rows.
Proof.
  revert rows. induction ps as [|p ps IH]; intros rows Hnd Hrow.
  - simpl fold_left. symmetry. erewrite map_ext; [apply map_id|].
    intros r. simpl map. rewrite bool_decide_eq_false_2; [reflexivity|].
    apply not_elem_of_nil.
  - simpl fold_left. simpl map in Hnd. apply NoDup_cons in Hnd as [Hp Hnd].
    rewrite IH; [|exact Hnd|].
    + rewrite map_map. apply map_ext_in. intros r Hr.
      destruct (Nat.eq_dec (pk r) (pk p)) as [Heq|Hneq].
      * assert (r = p) as -> by (apply Hrow; [now left | exact Hr | exact Heq]).
        rewrite refreshed_self.
        rewrite bool_decide_eq_false_2
          by (rewrite with_targets_pk; exact Hp).
        rewrite bool_decide_eq_true_2; [reflexivity|].
        simpl map. apply list_elem_of_here.
      * rewrite refreshed_other by exact Hneq.
        simpl map. destruct (bool_decide (pk r ∈ map pk ps)) eqn:Hin.
        -- apply bool_decide_eq_true in Hin.
           rewrite bool_decide_eq_true_2; [reflexivity|].
           now apply list_elem_of_further.
        -- apply bool_decide_eq_false in Hin.
           rewrite bool_decide_eq_false_2; [reflexivity|].
           rewrite elem_of_cons. intros [H|H]; [contradiction | contradiction].
    + intros p' r' Hp' Hr' Hk.
      apply in_map_iff in Hr' as (r & <- & Hr).
      rewrite refreshed_pk in Hk.
      destruct (Nat.eq_dec (pk r) (pk p)) as [Heq|Hneq].
      * exfalso. apply Hp. rewrite <- Heq, Hk.
        now apply list_elem_of_In, in_map.
      * rewrite refreshed_other by exact Hneq.
        apply Hrow; [now right | exact Hr | exact Hk].
Qed.

Lemma NoDup_key_inj (rows : list provider) (p r : provider) :
  NoDup (map pk rows) -> In p rows -> In r rows -> pk r = pk p -> r = p.
Proof.
  induction rows as [|x rows IH]; [intros _ []|].
  simpl map. intros [Hx Hnd]%NoDup_cons [-> | Hp] [-> | Hr] Hk.
  - reflexivity.
  - exfalso. apply Hx. rewrite <- Hk. now apply list_elem_of_In, in_map.
  - exfalso. apply Hx. rewrite Hk. now apply list_elem_of_In, in_map.
  - now apply IH.
Qed.

Lemma NoDup_key_filter (f : provider -> bool) (rows : list provider) :
  NoDup (map pk rows) -> NoDup (map pk (List.filter f rows)).
Proof.
  induction rows as [|x rows IH]; [trivial|].
  simpl map. intros [Hx Hnd]%NoDup_cons. simpl List.filter.
  destruct (f x); [|now apply IH].
  simpl map. apply NoDup_cons. split; [|now apply IH].
  intros (y & Hy & Hin%filter_In)%list_elem_of_In%in_map_iff. apply Hx.
  rewrite <- Hy. apply list_elem_of_In, in_map. apply Hin.
Qed.

(** The table the script leaves behind *)
Lemma final_table (rows : list provider) :
  NoDup (map pk rows) ->
  table (update_cname_records gen_cname gen_txt base rows)
    = map (fun r => if has_custom_domain r
                    then with_targets gen_cname gen_txt r else r) rows.
Proof.
  intros Hnd. unfold update_cname_records. cbv zeta.
  set (st0 := prints _ {| table := rows; actions := [] |}).
  assert (Ht0 : table st0 = rows)
    by (unfold st0; now rewrite table_prints).
  clearbody st0. rewrite Ht0.
  destruct (providers_with_domains rows) as [|p0 ps0] eqn:Hps.
  - rewrite table_print, Ht0.
    symmetry. erewrite map_ext_in; [apply map_id|].
    intros r Hr. destruct (has_custom_domain r) eqn:Hd; [|reflexivity].
    assert (Hin : In r (providers_with_domains rows))
      by (apply filter_In; now split).
    rewrite Hps in Hin. destruct Hin.
  - rewrite table_prints. rewrite <- Hps. clear p0 ps0 Hps.
    rewrite loop_table, table_print, Ht0.
    rewrite passes_refresh.
    + apply map_ext_in. intros r Hr.
      destruct (has_custom_domain r) eqn:Hd.
      * rewrite bool_decide_eq_true_2; [reflexivity|].
        apply list_elem_of_In, in_map, filter_In. now split.
      * rewrite bool_decide_eq_false_2; [reflexivity|].
        rewrite list_elem_of_In.
        intros (p & Hk & [Hp Hpd]%filter_In)%in_map_iff.
        assert (r = p) by (apply (NoDup_key_inj rows); auto).
        congruence.
    + now apply NoDup_key_filter.
    + intros p r [Hp _]%filter_In Hr Hk.
      now apply (NoDup_key_inj rows).
Qed.

Lemma all_saves (rows : list provider) :
  saves (actions (update_cname_records gen_cname gen_txt base rows))
    = flat_map (fun p =>
                  match stale_fields gen_cname gen_txt p with
                  | [] => []
                  | _ :: _ => [(pk p, stale_fields gen_cname gen_txt p)]
                  end) (providers_with_domains rows).
Proof.
  unfold update_cname_records. cbv zeta.
  set (st0 := prints _ {| table := rows; actions := [] |}).
  assert (Ht0 : table st0 = rows)
    by (unfold st0; now rewrite table_prints).
  assert (Hs0 : saves (actions st0) = [])
    by (unfold st0; now rewrite saves_prints).
  clearbody st0. rewrite Ht0.
  destruct (providers_with_domains rows) as [|p0 ps0] eqn:Hps.
  - now rewrite saves_print, Hs0.
  - rewrite saves_prints. rewrite <- Hps. clear p0 ps0 Hps.
    now rewrite loop_saves, saves_print, Hs0, table_print, Ht0.
Qed.
End CnameTable.

(** X14.  With unique primary keys, the script leaves every provider that
    has a custom domain with the CNAME target and TXT record name the two
    helpers generate for it, and leaves every other row (no custom
    domain, or an empty one) exactly as it was; no row is added, dropped
    or moved. *)
Theorem update_cname_records_refreshes_targets :
  forall (gen_cname gen_txt : CnameConfig.provider -> string)
         (base : option string) (rows : list CnameConfig.provider),
    NoDup (map CnameConfig.pk rows) ->
    CnameConfig.table
      (CnameConfig.update_cname_records gen_cname gen_txt base rows)
      = map (fun r =>
               if CnameConfig.has_custom_domain r
               then CnameConfig.set_txt_record_name
                      (CnameConfig.set_cname_target r (Some (gen_cname r)))
                      (Some (gen_txt r))
               else r) rows.
Proof. intros. now apply final_table. Qed.

Lemma update_cname_records_refreshes_targets_witness :
  map (fun p => (CnameConfig.pk p, CnameConfig.cname_target p,
                 CnameConfig.txt_record_name p))
      (CnameConfig.table
         (CnameConfig.update_cname_records CnameConfig.slug_target
            CnameConfig.slug_txt None CnameConfig.sample))
    = [(1, None, None);
       (2, Some "provider-2.nextslot.in", Some "_nextslot-verify-2");
       (3, Some "provider-3.nextslot.in", Some "_nextslot-verify-3")].
Proof.
  rewrite (update_cname_records_refreshes_targets CnameConfig.slug_target
             CnameConfig.slug_txt None CnameConfig.sample).
  - reflexivity.
  - repeat constructor; simpl; rewrite ?elem_of_cons, ?elem_of_nil; lia.
Defined.

(** X15.  The script writes to the database once for each provider that
    has a custom domain and at least one stale target, in table order,
    and names in [update_fields] exactly the stale fields; it makes no
    other write.  So a [save] never has an empty field list, never names
    another field, and never touches a provider without a custom
    domain. *)
Theorem update_cname_records_saves_only_stale_fields :
  forall (gen_cname gen_txt : CnameConfig.provider -> string)
         (base : option string) (rows : list CnameConfig.provider),
    CnameConfig.saves
      (CnameConfig.actions
         (CnameConfig.update_cname_records gen_cname gen_txt base rows))
      = flat_map
          (fun p =>
             match CnameConfig.stale_fields gen_cname gen_txt p with
             | [] => []
             | _ :: _ =>
                 [(CnameConfig.pk p,
                   CnameConfig.stale_fields gen_cname gen_txt p)]
             end)
          (CnameConfig.providers_with_domains rows)
    /\ forall key fields,
         In (key, fields)
            (CnameConfig.saves
               (CnameConfig.actions
                  (CnameConfig.update_cname_records gen_cname gen_txt
                     base rows))) ->
         fields <> []
         /\ incl fields ["cname_target"; "txt_record_name"]
         /\ exists p,
              In p rows /\ CnameConfig.pk p = key
              /\ CnameConfig.has_custom_domain p = true
              /\ fields = CnameConfig.stale_fields gen_cname gen_txt p.
Proof.
  intros gen_cname gen_txt base rows. split; [apply all_saves|].
  intros key fields. rewrite all_saves.
  intros (p & [Hp Hd]%filter_In & Hin)%in_flat_map.
  destruct (CnameConfig.stale_fields gen_cname gen_txt p) as [|f fs] eqn:Hs;
    [destruct Hin|].
  destruct Hin as [[= <- <-] | []].
  split; [discriminate|]. split; [|exists p; rewrite Hs; auto].
  rewrite <- Hs. unfold CnameConfig.stale_fields.
  intros x. repeat case_bool_decide; simpl; tauto.
Qed.

Lemma update_cname_records_saves_only_stale_fields_witness :
  CnameConfig.saves
    (CnameConfig.actions
       (CnameConfig.update_cname_records CnameConfig.slug_target
          CnameConfig.slug_txt None CnameConfig.sample))
    = [(2, ["cname_target"; "txt_record_name"])].
Proof.
  rewrite (proj1 (update_cname_records_saves_only_stale_fields
                    CnameConfig.slug_target CnameConfig.slug_txt None
                    CnameConfig.sample)).
  reflexivity.
Defined.

Section CnameIdempotence.
Import CnameConfig.
Variable gen_cname gen_txt : provider -> string.
Hypothesis gen_cname_stable :
  forall r, gen_cname (with_targets gen_cname gen_txt r) = gen_cname r.
Hypothesis gen_txt_stable :
  forall r, gen_txt (with_targets gen_cname gen_txt r) = gen_txt r.

Lemma with_targets_twice (r : provider) :
  with_targets gen_cname gen_txt (with_targets gen_cname gen_txt r)
    = with_targets gen_cname gen_txt r.
Proof.
  unfold with_targets at 1.
  now rewrite gen_cname_stable, gen_txt_stable.
Qed.

Lemma with_targets_fresh (r : provider) :
  stale_fields gen_cname gen_txt (with_targets gen_cname gen_txt r) = [].
Proof.
  unfold stale_fields. rewrite gen_cname_stable, gen_txt_stable.
  now rewrite !bool_decide_eq_true_2.
Qed.

Lemma flat_map_all_nil {A B} (f : A -> list B) (l : list A) :
  (forall x, In x l -> f x = []) -> flat_map f l = [].
Proof.
  induction l as [|x l IH]; intros H; [reflexivity|].
  simpl. rewrite (H x) by now left. apply IH. intros y Hy. apply H.
  now right.
Qed.

Lemma second_run (base : option string) (rows : list provider) :
  NoDup (map pk rows) ->
  let after_first :=
    table (update_cname_records gen_cname gen_txt base rows) in
  table (update_cname_records gen_cname gen_txt base after_first)
    = after_first
  /\ saves (actions
              (update_cname_records gen_cname gen_txt base after_first))
     = [].
Proof.
  intros Hnd after_first. subst after_first.
  rewrite (final_table gen_cname gen_txt base rows Hnd).
  set (refresh := fun r => if has_custom_domain r
                           then with_targets gen_cname gen_txt r else r).
  assert (Hkeys : map pk (map refresh rows) = map pk rows).
  { rewrite map_map. apply map_ext. intros r. unfold refresh.
    now destruct (has_custom_domain r). }
  split.
  - rewrite final_table by (now rewrite Hkeys).
    fold refresh. rewrite map_map. apply map_ext. intros r.
    unfold refresh. destruct (has_custom_domain r) eqn:Hd.
    + now rewrite with_targets_domain, Hd, with_targets_twice.
    + now rewrite Hd.
  - rewrite all_saves. apply flat_map_all_nil.
    intros p [(r & <- & Hr)%in_map_iff Hd]%filter_In.
    unfold refresh in *. destruct (has_custom_domain r) eqn:Hdr.
    + now rewrite with_targets_fresh.
    + congruence.
Qed.
End CnameIdempotence.

(** X16.  Running the script again changes nothing: when primary keys
    are unique and the two helpers do not depend on the two fields the
    script writes, a second run leaves the table as the first run left it
    and makes no [save] at all. *)
Theorem update_cname_records_idempotent :
  forall (gen_cname gen_txt : CnameConfig.provider -> string)
         (base : option string) (rows : list CnameConfig.provider),
    NoDup (map CnameConfig.pk rows) ->
    (forall r c t,
        gen_cname (CnameConfig.set_txt_record_name
                     (CnameConfig.set_cname_target r c) t) = gen_cname r
        /\ gen_txt (CnameConfig.set_txt_record_name
                      (CnameConfig.set_cname_target r c) t) = gen_txt r) ->
    let after_first :=
      CnameConfig.table
        (CnameConfig.update_cname_records gen_cname gen_txt base rows) in
    CnameConfig.table
      (CnameConfig.update_cname_records gen_cname gen_txt base after_first)
      = after_first
    /\ CnameConfig.saves
         (CnameConfig.actions
            (CnameConfig.update_cname_records gen_cname gen_txt base
               after_first))
       = [].
Proof.
  intros gen_cname gen_txt base rows Hnd Hstable.
  apply second_run; [| |exact Hnd]; intros r; apply Hstable.
Qed.

Lemma update_cname_records_idempotent_witness :
  CnameConfig.saves
    (CnameConfig.actions
       (CnameConfig.update_cname_records CnameConfig.slug_target
          CnameConfig.slug_txt None
          (CnameConfig.table
             (CnameConfig.update_cname_records CnameConfig.slug_target
                CnameConfig.slug_txt None CnameConfig.sample))))
    = [].
Proof.
  apply (update_cname_records_idempotent CnameConfig.slug_target
           CnameConfig.slug_txt None CnameConfig.sample).
  - repeat constructor; simpl; rewrite ?elem_of_cons, ?elem_of_nil; lia.
  - intros r c t. split; reflexivity.
Defined.

(** * The reference [save] returns, with the helper a parameter *)

Section GeneratedIdentifier.
Import PyStr OsPath CloudinaryStorage.
Variable sanitize_filename : string -> string.




End GeneratedIdentifier.




(** * The three historical formats of a stored reference *)

Section HostedUrl.
Import PyStr OsPath PublicId.

(** The last field of a split is what follows the last separator. *)
Lemma split_last (c : ascii) (a b : string) :
  has_char c b = false ->
  List.last (split c (a +:+ String c b)) EmptyString = b.
Proof.
  intros Hb. induction a as [|x a IH].
  - change (EmptyString +:+ String c b) with (String c b).
    simpl split. rewrite Ascii.eqb_refl, (split_absent c b Hb).
    reflexivity.
  - rewrite append_cons. simpl split.
    assert (Hlen : 2 <= List.length (split c (a +:+ String c b))).
    { apply split_length_has_char. rewrite has_char_app. simpl has_char.
      rewrite Ascii.eqb_refl. apply orb_true_r. }
    destruct (Ascii.eqb x c).
    + destruct (split c (a +:+ String c b)) as [|w ws]; [simpl in Hlen; lia|].
      exact IH.
    + destruct (split c (a +:+ String c b)) as [|w [|w' ws]];
        simpl in Hlen; try lia. exact IH.
Qed.

(** Rule (b): a reference that contains [cloudinary.com] and a [/], and
    does not start with the folder prefix, extracts to the folder and its
    last path segment without extension. *)
Lemma extract_hosted_url (cfg : settings) (a file : string) :
  has_char sep file = false ->
  startswith (a +:+ String sep file) (folder_of cfg +:+ "/") = false ->
  contains "cloudinary.com" (a +:+ String sep file) = true ->
  _extract_public_id cfg (a +:+ String sep file)
    = Some (folder_of cfg +:+ "/" +:+ fst (splitext file)).
Proof.
  intros Hfile Hpre Hurl. unfold _extract_public_id. cbv zeta.
  assert (Ht : truthy (a +:+ String sep file) = true) by now destruct a.
  assert (Hlen : (2 <=? List.length (split sep (a +:+ String sep file)))%nat
                 = true).
  { apply Nat.leb_le, split_length_has_char. rewrite has_char_app.
    simpl has_char. apply orb_true_r. }
  rewrite Ht, Hpre, Hurl, Hlen, (split_last sep a file Hfile).
  simpl negb. cbv iota. now destruct (_ && _).
Qed.

(** Rule (c) for a name without a separator *)
Lemma extract_bare (cfg : settings) (name : string) :
  name <> EmptyString ->
  has_char sep name = false ->
  _extract_public_id cfg name =
    Some (if startswith (fst (splitext name)) (folder_of cfg)
          then fst (splitext name)
          else folder_of cfg +:+ "/" +:+ fst (splitext name)).
Proof.
  intros Hne Hsep. unfold _extract_public_id. cbv zeta.
  apply truthy_true in Hne. rewrite Hne. simpl negb. cbv iota.
  assert (Hpre : startswith name (folder_of cfg +:+ "/") = false).
  { destruct (startswith name _) eqn:Hp; [|reflexivity].
    apply prefix_split in Hp. rewrite Hp, !has_char_app in Hsep.
    simpl in Hsep. rewrite orb_true_r in Hsep. discriminate. }
  rewrite Hpre, (split_absent sep name Hsep).
  rewrite (splitext_root_no_sep name Hsep).
  simpl andb. unfold startswith.
  destruct (contains _ name); simpl; now destruct (String.prefix _ _).
Qed.

(** Rule (a) for a folder-prefixed identifier without a dot *)
Lemma extract_prefixed_dotless (cfg : settings) (id : string) :
  has_char extsep id = false ->
  _extract_public_id cfg (folder_of cfg +:+ "/" +:+ id)
    = Some (folder_of cfg +:+ "/" +:+ id).
Proof.
  intros Hid. unfold _extract_public_id. cbv zeta.
  rewrite truthy_append_sep. simpl negb. cbv iota.
  assert (Hp : startswith (folder_of cfg +:+ "/" +:+ id)
                 (folder_of cfg +:+ "/") = true).
  { unfold startswith. rewrite <- append_assoc. apply prefix_app. }
  rewrite Hp.
  change ("/" +:+ id) with (String sep id).
  now rewrite splitext_dotless_tail.
Qed.
End HostedUrl.

(** C2.  With folder ["folder"], the reference [folder/abc123], the bare
    file name [abc123.png], and every hosted URL
    [https://.../v1/folder/abc123.png] (a reference of that shape that
    contains [cloudinary.com], whatever stands between the scheme and
    [/v1]) all extract to [folder/abc123].  The same holds for every
    folder and identifier: when the identifier is not empty, holds no dot
    and no separator and does not begin with the folder's name, the
    folder-prefixed identifier, a hosted URL that ends in the folder, the
    identifier and an extension, and the identifier with an extension all
    extract to the folder-prefixed identifier.  In general a reference
    that does not start with the folder prefix and contains
    [cloudinary.com] and a [/] extracts to the folder and its last path
    segment without extension. *)
Theorem extraction_three_formats :
  PublicId._extract_public_id TestDouble.folder_settings "folder/abc123"
    = Some "folder/abc123"
  /\ PublicId._extract_public_id TestDouble.folder_settings "abc123.png"
       = Some "folder/abc123"
  /\ (forall middle : string,
        PyStr.contains "cloudinary.com"
          ("https://" +:+ middle +:+ "/v1/folder/abc123.png") = true ->
        PublicId._extract_public_id TestDouble.folder_settings
          ("https://" +:+ middle +:+ "/v1/folder/abc123.png")
          = Some "folder/abc123")
  /\ (forall (cfg : settings) (id before : string),
        id <> "" ->
        PyStr.has_char OsPath.extsep id = false ->
        PyStr.has_char OsPath.sep id = false ->
        PyStr.startswith id (folder_of cfg) = false ->
        let url := before +:+ "/" +:+ folder_of cfg +:+ "/" +:+ id
                     +:+ ".png" in
        PyStr.contains "cloudinary.com" url = true ->
        PyStr.startswith url (folder_of cfg +:+ "/") = false ->
        PublicId._extract_public_id cfg (folder_of cfg +:+ "/" +:+ id)
          = Some (folder_of cfg +:+ "/" +:+ id)
        /\ PublicId._extract_public_id cfg url
           = Some (folder_of cfg +:+ "/" +:+ id)
        /\ PublicId._extract_public_id cfg (id +:+ ".png")
           = Some (folder_of cfg +:+ "/" +:+ id))
  /\ forall (cfg : settings) (name : string),
       PyStr.startswith name (folder_of cfg +:+ "/") = false ->
       PyStr.contains "cloudinary.com" name = true ->
       PyStr.has_char OsPath.sep name = true ->
       PublicId._extract_public_id cfg name =
         Some (folder_of cfg +:+ "/"
               +:+ fst (OsPath.splitext
                          (List.last (PyStr.split OsPath.sep name) ""))).
Proof.
  split; [reflexivity|]. split; [reflexivity|]. split; [|split].
  - intros middle Hurl.
    assert (Hshape : "https://" +:+ middle +:+ "/v1/folder/abc123.png"
                     = ("https://" +:+ middle +:+ "/v1/folder")
                         +:+ String OsPath.sep "abc123.png")
      by (now rewrite !append_assoc).
    rewrite Hshape in *.
    rewrite (extract_hosted_url TestDouble.folder_settings
               ("https://" +:+ middle +:+ "/v1/folder") "abc123.png");
      [reflexivity | reflexivity | | exact Hurl].
    rewrite <- Hshape. reflexivity.
  - intros cfg id before Hne Hdot Hsep Hfolder url Hurl Hpre.
    assert (Hfile : OsPath.splitext (id +:+ ".png") = (id, ".png")).
    { change ".png" with (String OsPath.extsep "png").
      now apply splitext_joined. }
    assert (Hnosep : PyStr.has_char OsPath.sep (id +:+ ".png") = false)
      by (now rewrite has_char_app, Hsep).
    split; [now apply extract_prefixed_dotless|]. split.
    + assert (Hshape : url = (before +:+ "/" +:+ folder_of cfg)
                               +:+ String OsPath.sep (id +:+ ".png"))
        by (unfold url; now rewrite !append_assoc).
      rewrite Hshape in *.
      rewrite (extract_hosted_url cfg _ _ Hnosep Hpre Hurl).
      now rewrite Hfile.
    + rewrite extract_bare; [|now destruct id | exact Hnosep].
      rewrite Hfile. simpl fst. now rewrite Hfolder.
  - intros cfg name Hpre Hurl Hsep.
    unfold PublicId._extract_public_id.
    assert (Ht : PyStr.truthy name = true)
      by (destruct name; [discriminate | reflexivity]).
    apply split_length_has_char, Nat.leb_le in Hsep.
    cbv zeta. rewrite Ht, Hpre, Hurl, Hsep. simpl negb. cbv iota.
    now destruct (_ && _).
Qed.

Lemma extraction_three_formats_witness :
  PublicId._extract_public_id TestDouble.folder_settings
    "https://res.cloudinary.com/demo/image/upload/v1/folder/abc123.png"
    = Some "folder/abc123"
  /\ PublicId._extract_public_id TestDouble.default_settings
       "https://res.cloudinary.com/demo/image/upload/v1/media/my-logo_1a2b3c4d.png"
       = Some "media/my-logo_1a2b3c4d".
Proof.
  destruct extraction_three_formats as (_ & _ & Hclaim & Hany & _).
  split.
  - apply (Hclaim "res.cloudinary.com/demo/image/upload"). reflexivity.
  - apply (Hany TestDouble.default_settings "my-logo_1a2b3c4d"
                "https://res.cloudinary.com/demo/image/upload/v1");
      try reflexivity. discriminate.
Defined.

(** A URL that does not contain [cloudinary.com] is not read as a hosted
    URL: it has a separator and does not start with the folder, and comes
    back whole, without its extension. *)
Example extraction_other_host :
  PublicId._extract_public_id TestDouble.folder_settings
    "https://cdn.example.org/v1/folder/abc123.png"
    = Some "https://cdn.example.org/v1/folder/abc123".
Proof. reflexivity. Qed.
